(** * modules/llamacpp_model.py: the llama.cpp adapter of text-generation-webui

    A shallow embedding of [src/modules/llamacpp_model.py] and the
    properties of its backend resolution, cache-capacity parsing, logits
    processor, generation loop, streaming wrapper and handle lifecycle.

    Conventions of the embedding:
    - a Python [int] is a [Z]; a Python [float] is a binary64 [float];
    - a Python [str] is a [string] whose characters are read as the code
      points 0..255; [bytes] is a list of [byte];
    - code that can raise returns a [result];
    - objects that are mutated in place live in a heap, addressed by [loc]. *)

From Stdlib Require Import ZArith Ascii String Decimal DecimalString DecimalPos DecimalZ.
From Stdlib Require Import Floats Lia.
From stdpp Require Import base option list gmap strings.

Local Open Scope Z_scope.

(** ** Python preliminaries *)

Module Py.

(** The exceptions that the modelled code can raise. [DanglingReference]
    is not a Python exception: it marks a heap address without an object,
    which no Python program can produce. *)
Inductive exn : Set :=
| ValueError
| IndexError
| AttributeError
| UnicodeDecodeError
| UnicodeEncodeError
| DanglingReference.

Inductive result (A : Type) : Type :=
| Ok (a : A)
| Raise (e : exn).
Arguments Ok {A} a.
Arguments Raise {A} e.

Definition bind {A B} (r : result A) (k : A -> result B) : result B :=
  match r with
  | Ok a => k a
  | Raise e => Raise e
  end.

#[global] Instance result_ret : MRet result := @Ok.
#[global] Instance result_bind : MBind result := fun A B k r => bind r k.

Definition code (c : ascii) : Z := Z.of_N (N_of_ascii c).

(** [c in 'a'..'z' or 'A'..'Z']: the character class [[a-zA-Z]] of [re]
    on a [str] pattern without flags. *)
Definition is_ascii_letter (c : ascii) : bool :=
  ((97 <=? code c) && (code c <=? 122)) || ((65 <=? code c) && (code c <=? 90)).

(** [re.sub('[a-zA-Z]', '', s)]: every match of the class is replaced by
    the empty string. *)
Fixpoint re_sub_letters (s : string) : string :=
  match s with
  | EmptyString => EmptyString
  | String c s' =>
      if is_ascii_letter c then re_sub_letters s' else String c (re_sub_letters s')
  end.

(** [sub in s] on strings: [sub] occurs in [s] as a contiguous substring. *)
Fixpoint contains (sub s : string) : bool :=
  String.prefix sub s ||
  match s with
  | EmptyString => false
  | String _ s' => contains sub s'
  end.

(** *** [int(s)] on a string, base 10

    CPython's [PyLong_FromString]: leading white space, an optional sign,
    decimal digits in which single underscores may separate digits, trailing
    white space, and nothing else.  White space is the C-locale class
    (tab, newline, vertical tab, form feed, carriage return, space) and, for
    a non-ASCII string, the Unicode spaces, of which U+0085 and U+00A0 have a
    code point below 256.  The interpreter's configurable limit on the number
    of digits ([sys.set_int_max_str_digits]) is not part of the model. *)

Definition is_int_space (c : ascii) : bool :=
  ((9 <=? code c) && (code c <=? 13)) || (code c =? 32)
  || (code c =? 133) || (code c =? 160).

Definition digit_value (c : ascii) : option Z :=
  if (48 <=? code c) && (code c <=? 57) then Some (code c - 48) else None.

Definition is_underscore (c : ascii) : bool := code c =? 95.

Fixpoint skip_space (s : string) : string :=
  match s with
  | String c s' => if is_int_space c then skip_space s' else s
  | EmptyString => s
  end.

(** The digit scan: [prev] is the character read before, [acc] the value of
    the digits read so far.  Two underscores in a row and an underscore at
    the end of the digits are errors. *)
Fixpoint int_digits (s : string) (prev : ascii) (acc : Z) : result (Z * string) :=
  match s with
  | String c s' =>
      match digit_value c with
      | Some d => int_digits s' c (10 * acc + d)
      | None =>
          if is_underscore c then
            if is_underscore prev then Raise ValueError else int_digits s' c acc
          else
            if is_underscore prev then Raise ValueError else Ok (acc, s)
      end
  | EmptyString =>
      if is_underscore prev then Raise ValueError else Ok (acc, s)
  end.

Definition int_sign (s : string) : Z * string :=
  match s with
  | String c s' =>
      if code c =? 43 then (1, s')
      else if code c =? 45 then (-1, s')
      else (1, s)
  | EmptyString => (1, s)
  end.

Definition int (s : string) : result Z :=
  let '(sign, body) := int_sign (skip_space s) in
  match body with
  | String c _ =>
      match digit_value c with
      | None => Raise ValueError
      | Some _ =>
          '(n, rest) ← int_digits body "000"%char 0;
          match skip_space rest with
          | EmptyString => Ok (sign * n)
          | String _ _ => Raise ValueError
          end
      end
  | EmptyString => Raise ValueError
  end.

(** [str(n)] for an [int]: the decimal numeral, with a minus sign for a
    negative number, taken from the Standard Library's printer. *)
Definition str_of_int (n : Z) : string := NilZero.string_of_int (Z.to_int n).

(** *** Sequence indexing

    [l[i]] for an integer [i]: a negative index counts from the end, an
    index outside [-len(l) .. len(l)-1] raises [IndexError]. *)
Definition index {A} (l : list A) (i : Z) : result nat :=
  let n := Z.of_nat (length l) in
  let j := if i <? 0 then i + n else i in
  if (0 <=? j) && (j <? n) then Ok (Z.to_nat j) else Raise IndexError.

(** [l[i] = x] *)
Definition setitem {A} (l : list A) (i : Z) (x : A) : result (list A) :=
  j ← index l i; Ok (<[j := x]> l).

(** [l[start:]]: the slice from [start] to the end.  A negative [start]
    counts from the end; the bounds are clipped to [0 .. len(l)], so a
    slice never raises. *)
Definition slice_from {A} (l : list A) (start : Z) : list A :=
  let n := Z.of_nat (length l) in
  let s := if start <? 0 then Z.max (start + n) 0 else Z.min start n in
  drop (Z.to_nat s) l.

(** [float('inf')] and unary minus on floats. *)
Definition float_inf : float := infinity.
Definition float_neg (x : float) : float := PrimFloat.opp x.

End Py.

Import Py.

(** ** Cache capacity ([from_pretrained], lines 62-69) *)

Module CacheConfig.

(** The value of [cache_capacity] after the block

    [[
        cache_capacity = 0
        if shared.args.cache_capacity is not None:
            if 'GiB' in shared.args.cache_capacity: ...
            elif 'MiB' in shared.args.cache_capacity: ...
            else: ...
    ]]

    as a function of [shared.args.cache_capacity] ([None] when the option
    was not given). *)
Definition cache_capacity (args_cache_capacity : option string) : result Z :=
  match args_cache_capacity with
  | None => Ok 0
  | Some s =>
      if contains "GiB" s then
        n ← int (re_sub_letters s); Ok (n * 1000 * 1000 * 1000)
      else if contains "MiB" s then
        n ← int (re_sub_letters s); Ok (n * 1000 * 1000)
      else
        int s
  end.

(** [if cache_capacity > 0: result.model.set_cache(...)] *)
Definition attaches_cache (capacity : Z) : bool := 0 <? capacity.

End CacheConfig.

Import CacheConfig.

(** ** Backend resolution (module level, lines 14-40) *)

Module BackendResolver.

(** The four packages that the file tries to import. *)
Inductive module : Set :=
| llama_cpp
| llama_cpp_ggml
| llama_cpp_cuda
| llama_cpp_ggml_cuda.

(** What the import block finds: whether [torch.cuda.is_available()],
    whether [torch.version.hip] is truthy, and which of the optional
    packages can be imported.  [import llama_cpp] is not optional: the file
    does not load without it. *)
Record imports : Set := {
  imports_ggml : bool;
  cuda_is_available : bool;
  version_hip : bool;
  imports_cuda : bool;
  imports_ggml_cuda : bool
}.

(** The module-level names after the import block; a name bound to [None]
    is [None] here. *)
Record globals : Set := {
  g_llama_cpp : module;
  g_llama_cpp_ggml : module;
  g_llama_cpp_cuda : option module;
  g_llama_cpp_ggml_cuda : option module
}.

(** Lines 14-32. *)
Definition import_block (e : imports) : globals :=
  let ggml := if imports_ggml e then llama_cpp_ggml else llama_cpp in
  if cuda_is_available e && negb (version_hip e) then
    let cuda := if imports_cuda e then Some llama_cpp_cuda else None in
    let ggml_cuda := if imports_ggml_cuda e then Some llama_cpp_ggml_cuda else cuda in
    {| g_llama_cpp := llama_cpp; g_llama_cpp_ggml := ggml;
       g_llama_cpp_cuda := cuda; g_llama_cpp_ggml_cuda := ggml_cuda |}
  else
    {| g_llama_cpp := llama_cpp; g_llama_cpp_ggml := ggml;
       g_llama_cpp_cuda := None; g_llama_cpp_ggml_cuda := None |}.

(** Lines 35-40.  [args_cpu] is [shared.args.cpu]; [is_gguf] is the format
    detector of [modules.utils]; [model_file] is [None] when the argument is
    left out. *)
Definition llama_cpp_lib (g : globals) (args_cpu : bool) (is_gguf : string -> bool)
    (model_file : option string) : option module :=
  let gguf_model :=
    match model_file with
    | Some f => is_gguf f
    | None => true
    end in
  if args_cpu || bool_decide (g_llama_cpp_cuda g = None) then
    Some (if gguf_model then g_llama_cpp g else g_llama_cpp_ggml g)
  else
    if gguf_model then g_llama_cpp_cuda g else g_llama_cpp_ggml_cuda g.

(** The engine variants of the specification and the package of each. *)
Inductive variant : Set :=
| CPU_modern
| CPU_legacy
| Accelerated_modern
| Accelerated_legacy.

Definition variant_of (m : module) : variant :=
  match m with
  | llama_cpp => CPU_modern
  | llama_cpp_ggml => CPU_legacy
  | llama_cpp_cuda => Accelerated_modern
  | llama_cpp_ggml_cuda => Accelerated_legacy
  end.

Inductive family : Set := Modern | Legacy.

Definition family_of (m : module) : family :=
  match m with
  | llama_cpp | llama_cpp_cuda => Modern
  | llama_cpp_ggml | llama_cpp_ggml_cuda => Legacy
  end.

(** The resolution table as the specification (section 4.1) words it:
    [accelerated] is "accelerated available and not disabled", [modern] the
    format family, [loaded v] whether the module of variant [v] loaded. *)
Definition resolution_table (accelerated modern : bool) (loaded : variant -> bool)
    : variant :=
  match accelerated, modern with
  | false, true => CPU_modern
  | false, false => CPU_legacy
  | true, true =>
      if loaded Accelerated_modern then Accelerated_modern else CPU_modern
  | true, false =>
      if loaded Accelerated_legacy then Accelerated_legacy
      else if loaded Accelerated_modern then Accelerated_modern
      else CPU_legacy
  end.

(** "Accelerated hardware available and not disabled" and "the module
    loaded", read off the import outcome. *)
Definition accelerated (e : imports) (args_cpu : bool) : bool :=
  cuda_is_available e && negb (version_hip e) && negb args_cpu.

Definition module_loaded (e : imports) (v : variant) : bool :=
  match v with
  | CPU_modern => true
  | CPU_legacy => imports_ggml e
  | Accelerated_modern => imports_cuda e
  | Accelerated_legacy => imports_ggml_cuda e
  end.

End BackendResolver.

Import BackendResolver.

(** ** The logits processor (lines 43-45) *)

Module Logits.

(** Addresses of the logits arrays, and the heap that holds them. *)
Definition loc : Set := positive.
Abbreviation heap := (gmap loc (list float)).

(** [[
    def ban_eos_logits_processor(eos_token, input_ids, logits):
        logits[eos_token] = -float('inf')
        return logits
    ]]
    [logits] is a reference: the assignment updates the object in the heap
    and the reference itself is returned. *)
Definition ban_eos_logits_processor (eos_token : Z) (input_ids : list Z)
    (logits : loc) (h : heap) : result loc * heap :=
  match h !! logits with
  | None => (Raise DanglingReference, h)
  | Some v =>
      match setitem v eos_token (float_neg float_inf) with
      | Ok v' => (Ok logits, <[logits := v']> h)
      | Raise e => (Raise e, h)
      end
  end.

(** A step function of a logits-processor list, after [partial] has fixed
    its first argument. *)
Definition logits_processor : Type := list Z -> loc -> heap -> result loc * heap.

End Logits.

Import Logits.

(** ** The model handle and the generation engine (lines 48-161) *)

Module Engine.

(** A chunk of the backend's streaming completion, as far as the loop
    reads it: [chunk['choices'][0]['text']].  The backend yields chunks with
    at least one choice, so [choices] is a head and a tail. *)
Record completion_choice : Set := { text : string }.
Record completion_chunk : Set := {
  choices : completion_choice * list completion_choice
}.

(** An instance of the module's [LogitsProcessorList] class. *)
Record LogitsProcessorList : Type := {
  lpl_module : module;
  lpl_processors : list logits_processor
}.

(** The keyword arguments of [create_completion]. *)
Record completion_args : Type := {
  prompt : string;
  max_tokens : Z;
  temperature : float;
  top_p : float;
  top_k : Z;
  repeat_penalty : float;
  tfs_z : float;
  mirostat_mode : Z;
  mirostat_tau : float;
  mirostat_eta : float;
  stream : bool;
  logits_processor_arg : option LogitsProcessorList
}.

(** The backend model object ([Llama] of the resolved module): an opaque
    capability.  [llama_id] is the identity of the object, [llama_module]
    the module whose class built it; the stream of [create_completion] is
    the finite list of the chunks it will yield. *)
Record Llama : Type := {
  llama_id : positive;
  llama_module : module;
  tokenize : list Byte.byte -> list Z;
  detokenize : list Z -> list Byte.byte;
  token_eos : Z;
  create_completion : completion_args -> list completion_chunk
}.

(** The generation state: the keys of the [state] dictionary that
    [generate] reads ([mirostat_mode] is held as an integer, on which
    [int(...)] is the identity). *)
Record state : Set := {
  st_max_new_tokens : Z;
  st_temperature : float;
  st_top_p : float;
  st_top_k : Z;
  st_repetition_penalty : float;
  st_tfs : float;
  st_mirostat_mode : Z;
  st_mirostat_tau : float;
  st_mirostat_eta : float;
  st_ban_eos_token : bool
}.

(** What the file takes from outside: the UTF-8 codec of the interpreter
    ([str.encode] raises [UnicodeEncodeError] on a string that UTF-8 cannot
    encode, [bytes.decode] raises [UnicodeDecodeError]), the prompt-length
    policy, the outcome of the imports and [shared].
    [stop_everything i] is the value of [shared.stop_everything] at its
    [i]-th read (from 0); other threads write the flag, so successive reads
    are not related. *)
Class Runtime : Type := {
  str_encode : string -> result (list Byte.byte);
  bytes_decode : list Byte.byte -> result string;
  get_max_prompt_length : state -> Z;
  module_imports : imports;
  shared_args_cpu : bool;
  is_gguf : string -> bool;
  stop_everything : nat -> bool
}.

(** [LlamaCppModel]: the attribute [initialized] set by [__init__] and the
    attribute [model], absent until [from_pretrained] assigns it. *)
Record LlamaCppModel : Type := {
  initialized : bool;
  model : option Llama
}.

(** [[
    def __init__(self):
        self.initialized = False
    ]] *)
Definition __init__ : LlamaCppModel := {| initialized := false; model := None |}.

(** Line 101: the backend object built by the [Llama] class is stored in
    [result.model]. *)
Definition set_model (self : LlamaCppModel) (m : Llama) : LlamaCppModel :=
  {| initialized := initialized self; model := Some m |}.

(** Reading [self.model]. *)
Definition self_model (self : LlamaCppModel) : result Llama :=
  match model self with
  | Some m => Ok m
  | None => Raise AttributeError
  end.

(** The teardown record: how many times [__del__] of each backend object
    was called. *)
Abbreviation teardowns := (gmap positive nat).

Definition teardown_count (w : teardowns) (m : Llama) : nat :=
  default 0%nat (w !! llama_id m).

(** [[
    def __del__(self):
        self.model.__del__()
    ]] *)
Definition __del__ (self : LlamaCppModel) (w : teardowns) : result unit * teardowns :=
  match self_model self with
  | Ok m => (Ok tt, <[llama_id m := S (teardown_count w m)]> w)
  | Raise e => (Raise e, w)
  end.

(** [n] releases of the same handle, one after the other; a release that
    raises does not stop the later ones (an exception in a finalizer is
    not propagated). *)
Fixpoint releases (n : nat) (self : LlamaCppModel) (w : teardowns) : teardowns :=
  match n with
  | O => w
  | S n' => releases n' self (snd (__del__ self w))
  end.

Inductive str_or_bytes : Set :=
| Str (s : string)
| Bytes (b : list Byte.byte).

Section WithRuntime.
Context {R : Runtime}.

(** [[
    def encode(self, string):
        if type(string) is str:
            string = string.encode()
        return self.model.tokenize(string)
    ]] *)
Definition encode (self : LlamaCppModel) (string : str_or_bytes) : result (list Z) :=
  string ← match string with
           | Str s => str_encode s
           | Bytes b => Ok b
           end;
  m ← self_model self;
  Ok (tokenize m string).

(** [[
    def decode(self, tokens):
        return self.model.detokenize(tokens)
    ]] *)
Definition decode (self : LlamaCppModel) (tokens : list Z) : result (list Byte.byte) :=
  m ← self_model self;
  Ok (detokenize m tokens).

(** Lines 123-125: the tokens of the prompt after truncation. *)
Definition truncate (tokens : list Z) (st : state) : list Z :=
  slice_from tokens (- get_max_prompt_length st).

(** Lines 119-143 of [generate]: everything up to the call of
    [create_completion], that is the backend object and the arguments it is
    called with. *)
Definition completion_call (self : LlamaCppModel) (prompt : str_or_bytes) (st : state)
    : result (Llama * completion_args) :=
  lib ← match llama_cpp_lib (import_block module_imports) shared_args_cpu is_gguf None with
        | Some m => Ok m
        | None => Raise AttributeError
        end;
  prompt ← match prompt with
           | Str s => Ok s
           | Bytes b => bytes_decode b
           end;
  tokens ← encode self (Str prompt);
  bytes ← decode self (truncate tokens st);
  prompt ← bytes_decode bytes;
  m ← self_model self;
  Ok (m, {| prompt := prompt;
            max_tokens := st_max_new_tokens st;
            temperature := st_temperature st;
            top_p := st_top_p st;
            top_k := st_top_k st;
            repeat_penalty := st_repetition_penalty st;
            tfs_z := st_tfs st;
            mirostat_mode := st_mirostat_mode st;
            mirostat_tau := st_mirostat_tau st;
            mirostat_eta := st_mirostat_eta st;
            stream := true;
            logits_processor_arg :=
              if st_ban_eos_token st then
                Some {| lpl_module := lib;
                        lpl_processors :=
                          [ban_eos_logits_processor (token_eos m)] |}
              else None |}).

(** Lines 145-154, the loop over the stream.  [reads] counts the reads of
    [shared.stop_everything] so far; the callback acts on a state [W] of
    its own. *)
Fixpoint consume {W} (callback : option (string -> W -> W))
    (completion_chunks : list completion_chunk) (reads : nat)
    (output : string) (w : W) : string * W :=
  match completion_chunks with
  | [] => (output, w)
  | completion_chunk :: rest =>
      if stop_everything reads then (output, w)
      else
        let text := text (fst (choices completion_chunk)) in
        let output := output +:+ text in
        let w :=
          match callback with
          | Some f => f text w
          | None => w
          end in
        consume callback rest (S reads) output w
  end.

(** [generate(self, prompt, state, callback=None)] *)
Definition generate {W} (self : LlamaCppModel) (prompt : str_or_bytes) (st : state)
    (callback : option (string -> W -> W)) (w : W) : result string * W :=
  match completion_call self prompt st with
  | Raise e => (Raise e, w)
  | Ok (m, args) =>
      let '(output, w') := consume callback (create_completion m args) 0 "" w in
      (Ok output, w')
  end.

(** Modelled from the spec: [Iteratorize] of [modules/callbacks.py], which
    is not part of the sources at hand.  By sections 4.5 and 5 it turns the
    push-style [func] into a pull-style producer over a single-producer,
    single-consumer channel that carries the token chunks: [func] runs with
    a callback that puts each value on the channel, and the producer yields
    the values of the channel in order until [func] is done. *)
Definition Iteratorize
    (func : option (string -> list string -> list string) ->
            list string -> result string * list string) : list string :=
  snd (func (Some (fun val channel => channel ++ [val])) []).

(** Lines 158-161, the body of the [with]: the items yielded for the tokens
    that [generator] produces. *)
Fixpoint replies (reply : string) (generator : list string) : list string :=
  match generator with
  | [] => []
  | token :: rest =>
      let reply := reply +:+ token in
      reply :: replies reply rest
  end.

(** [generate_with_streaming(self, prompt, state)]: all the items of the
    generator, in order.  A consumer that pulls [n] times sees the first [n]
    of them. *)
Definition generate_with_streaming (self : LlamaCppModel) (prompt : str_or_bytes)
    (st : state) : list string :=
  replies "" (Iteratorize (generate self prompt st)).

Definition pulled (n : nat) (self : LlamaCppModel) (prompt : str_or_bytes)
    (st : state) : list string :=
  take n (generate_with_streaming self prompt st).

End WithRuntime.

(** The texts of a list of chunks, and their concatenation. *)
Definition texts (cs : list completion_chunk) : list string :=
  map (fun c => text (fst (choices c))) cs.

Definition concat_str (l : list string) : string :=
  fold_right String.append "" l.

End Engine.

Import Engine.

(** ** Loading a model ([from_pretrained], lines 55-106) *)

Module Loader.

(** *** More of [str]

    [s.strip()] removes the white space of [str.isspace] at both ends; among
    the code points below 256 these are 9-13, 28-32, U+0085 and U+00A0.
    [s.split(sep)] with a one-character separator cuts at every occurrence,
    so the number of fields is one more than the number of separators. *)
Definition is_str_space (c : ascii) : bool :=
  ((9 <=? code c) && (code c <=? 13)) || ((28 <=? code c) && (code c <=? 32))
  || (code c =? 133) || (code c =? 160).

Fixpoint lstrip (s : string) : string :=
  match s with
  | String c s' => if is_str_space c then lstrip s' else s
  | EmptyString => s
  end.

Fixpoint rstrip (s : string) : string :=
  match s with
  | EmptyString => EmptyString
  | String c s' =>
      match rstrip s' with
      | EmptyString => if is_str_space c then EmptyString else String c EmptyString
      | r => String c r
      end
  end.

Definition strip (s : string) : string := rstrip (lstrip s).

Fixpoint split (sep : ascii) (s : string) : list string :=
  match s with
  | EmptyString => [EmptyString]
  | String c s' =>
      if Ascii.eqb c sep then EmptyString :: split sep s'
      else
        match split sep s' with
        | field :: fields => String c field :: fields
        | [] => [String c EmptyString]
        end
  end.

(** *** Values, exceptions and effects of loading *)

(** The values that the parameter dictionary holds. *)
Inductive value : Type :=
| VNone
| VBool (b : bool)
| VInt (z : Z)
| VFloat (f : float)
| VStr (s : string)
| VFloats (l : list float).

(** [x or None] on an [int] and on a [float]: zero (of either sign, for a
    float) is falsy. *)
Definition int_or_None (z : Z) : value := if z =? 0 then VNone else VInt z.
Definition float_or_None (f : float) : value :=
  if PrimFloat.eqb f 0 then VNone else VFloat f.

(** The exceptions of loading: those of [Py.exn], [ZeroDivisionError], and
    whatever code outside the file raises. *)
Inductive load_exn : Type :=
| Builtin (e : exn)
| ZeroDivisionError
| External (name : string).

Inductive load_result (A : Type) : Type :=
| Loaded (a : A)
| Failed (e : load_exn).
Arguments Loaded {A} a.
Arguments Failed {A} e.

Definition of_result {A} (r : result A) : load_result A :=
  match r with
  | Ok a => Loaded a
  | Raise e => Failed (Builtin e)
  end.

(** The effects on the backend: the calls of a [Llama] class, with the
    module of the class and the keyword arguments, in order; and the
    capacity of the cache set on each backend object. *)
Record backend : Type := {
  llama_calls : list (module * gmap string value);
  cache_of : gmap positive Z
}.

(** A computation that reads and writes the backend record and may raise. *)
Definition load (A : Type) : Type := backend -> load_result A * backend.

Definition load_ret {A} (a : A) : load A := fun w => (Loaded a, w).

Definition load_bind {A B} (c : load A) (k : A -> load B) : load B :=
  fun w =>
    match c w with
    | (Loaded a, w') => k a w'
    | (Failed e, w') => (Failed e, w')
    end.

Definition load_lift {A} (r : load_result A) : load A := fun w => (r, w).

Notation "'do' x <~ c ; k" := (load_bind c (fun x => k))
  (at level 10, x name, c at level 100, k at level 200).

(** [[f(x) for x in l]], raising at the first element on which [f] does. *)
Fixpoint comprehension {A B} (f : A -> load_result B) (l : list A)
    : load_result (list B) :=
  match l with
  | [] => Loaded []
  | x :: l' =>
      match f x with
      | Failed e => Failed e
      | Loaded y =>
          match comprehension f l' with
          | Failed e => Failed e
          | Loaded ys => Loaded (y :: ys)
          end
      end
  end.

(** What [from_pretrained] takes from outside: the attributes of
    [shared.args] it reads; [float(s)] and the conversion of an [int] to a
    [float], of the interpreter; [RoPE.get_rope_freq_base]; and the [Llama]
    class of each module. *)
Class LoadEnv : Type := {
  args_cache_capacity : option string;
  args_tensor_split : option string;
  args_n_ctx : Z;
  args_llama_cpp_seed : Z;
  args_threads : Z;
  args_n_batch : Z;
  args_no_mmap : bool;
  args_mlock : bool;
  args_mul_mat_q : bool;
  args_low_vram : bool;
  args_n_gpu_layers : Z;
  args_alpha_value : float;
  args_rope_freq_base : Z;
  args_compress_pos_emb : Z;
  args_n_gqa : Z;
  args_rms_norm_eps : float;
  float_of_str : string -> load_result float;
  float_of_int : Z -> load_result float;
  get_rope_freq_base : float -> Z -> value;
  Llama_class : module -> gmap string value -> load_result Llama
}.

Section WithLoadEnv.
Context {R : Runtime} {L : LoadEnv}.

(** Lines 73-76. *)
Definition tensor_split_list : load_result (option (list float)) :=
  match args_tensor_split with
  | None => Loaded None
  | Some s =>
      match strip s with
      | EmptyString => Loaded None
      | stripped =>
          match comprehension float_of_str (split "," stripped) with
          | Loaded l => Loaded (Some l)
          | Failed e => Failed e
          end
      end
  end.

(** [1.0 / n] for an [int] [n]. *)
Definition one_over (n : Z) : load_result float :=
  if n =? 0 then Failed ZeroDivisionError
  else
    match float_of_int n with
    | Loaded f => Loaded (1 / f)%float
    | Failed e => Failed e
    end.

(** Lines 78-92, the dictionary literal. *)
Definition params (path : string) (tensor_split_list : option (list float))
    : load_result (gmap string value) :=
  match one_over args_compress_pos_emb with
  | Failed e => Failed e
  | Loaded scale =>
      Loaded
        (<["model_path" := VStr path]> $
         <["n_ctx" := VInt args_n_ctx]> $
         <["seed" := VInt args_llama_cpp_seed]> $
         <["n_threads" := int_or_None args_threads]> $
         <["n_batch" := VInt args_n_batch]> $
         <["use_mmap" := VBool (negb args_no_mmap)]> $
         <["use_mlock" := VBool args_mlock]> $
         <["mul_mat_q" := VBool args_mul_mat_q]> $
         <["low_vram" := VBool args_low_vram]> $
         <["n_gpu_layers" := VInt args_n_gpu_layers]> $
         <["rope_freq_base" := get_rope_freq_base args_alpha_value args_rope_freq_base]> $
         <["tensor_split" :=
             match tensor_split_list with
             | Some l => VFloats l
             | None => VNone
             end]> $
         <["rope_freq_scale" := VFloat scale]> ∅)
  end.

(** Lines 95-98. *)
Definition ggml_params : gmap string value :=
  <["n_gqa" := int_or_None args_n_gqa]> $
  <["rms_norm_eps" := float_or_None args_rms_norm_eps]> ∅.

(** The call of the [Llama] class with the dictionary as keyword
    arguments, recorded. *)
Definition call_Llama (lib : module) (kwargs : gmap string value) : load Llama :=
  fun w =>
    (Llama_class lib kwargs,
     {| llama_calls := llama_calls w ++ [(lib, kwargs)]; cache_of := cache_of w |}).

(** [model.set_cache(LlamaCache(capacity_bytes=capacity))] *)
Definition set_cache (m : Llama) (capacity : Z) : load unit :=
  fun w =>
    (Loaded tt,
     {| llama_calls := llama_calls w;
        cache_of := <[llama_id m := capacity]> (cache_of w) |}).

(** [from_pretrained(cls, path)].  In [params |= ggml_params] the entries
    of the right-hand side win. *)
Definition from_pretrained (path : string) : load (LlamaCppModel * LlamaCppModel) :=
  do lib <~ load_lift
       match llama_cpp_lib (import_block module_imports) shared_args_cpu is_gguf
               (Some path) with
       | Some lib => Loaded lib
       | None => Failed (Builtin AttributeError)
       end;
  let result := __init__ in
  do cache_capacity <~ load_lift (of_result (cache_capacity args_cache_capacity));
  do tensor_split_list <~ load_lift tensor_split_list;
  do params <~ load_lift (params path tensor_split_list);
  let params := if is_gguf path then params else ggml_params ∪ params in
  do m <~ call_Llama lib params;
  let result := set_model result m in
  do _ <~ (if 0 <? cache_capacity then set_cache m cache_capacity else load_ret tt);
  load_ret (result, result).

End WithLoadEnv.

End Loader.

Import Loader.

(** ** Sample data for the examples *)

Module Sample.

(** CUDA hardware present, the accelerated legacy package installed, the
    accelerated modern package not. *)
Definition only_legacy_cuda : imports :=
  {| imports_ggml := true; cuda_is_available := true; version_hip := false;
     imports_cuda := false; imports_ggml_cuda := true |}.

Definition all_packages : imports :=
  {| imports_ggml := true; cuda_is_available := true; version_hip := false;
     imports_cuda := true; imports_ggml_cuda := true |}.

(** A format detector for the examples: a file is GGUF when its name
    contains [gguf]. *)
Definition gguf_by_name (f : string) : bool := contains "gguf" f.

(** A byte-level backend: one token per byte, and a completion that echoes
    the prompt, one character per chunk. *)
Definition chunk_of (t : string) : completion_chunk :=
  {| choices := ({| text := t |}, []) |}.

Fixpoint echo_chunks (s : string) : list completion_chunk :=
  match s with
  | EmptyString => []
  | String c s' => chunk_of (String c EmptyString) :: echo_chunks s'
  end.

Definition byte_tokens (b : list Byte.byte) : list Z :=
  map (fun x => Z.of_N (Byte.to_N x)) b.

Definition token_bytes (t : list Z) : list Byte.byte :=
  map (fun z => default Byte.x00 (Byte.of_N (Z.to_N z))) t.

Definition echo_model (id : positive) (lib : module) : Llama :=
  {| llama_id := id;
     llama_module := lib;
     tokenize := byte_tokens;
     detokenize := token_bytes;
     token_eos := 2;
     create_completion := fun args => echo_chunks (prompt args) |}.

(** The ASCII part of the UTF-8 codec. *)
Definition ascii_decode (b : list Byte.byte) : result string :=
  if forallb (fun x => (Byte.to_N x <? 128)%N) b
  then Ok (String.string_of_list_byte b)
  else Raise UnicodeDecodeError.

(** A runtime with prompt limit [limit] and the given reads of the
    cancellation flag. *)
Definition runtime (limit : Z) (stop : nat -> bool) : Runtime :=
  {| str_encode := fun s => Ok (String.list_byte_of_string s);
     bytes_decode := ascii_decode;
     get_max_prompt_length := fun _ => limit;
     module_imports := all_packages;
     shared_args_cpu := false;
     is_gguf := gguf_by_name;
     stop_everything := stop |}.

Definition never : nat -> bool := fun _ => false.
Definition after (k : nat) : nat -> bool := fun i => bool_decide (k <= i)%nat.

Definition sampling (ban_eos : bool) : state :=
  {| st_max_new_tokens := 200;
     st_temperature := 0.75%float;
     st_top_p := 0.875%float;
     st_top_k := 20;
     st_repetition_penalty := 1.25%float;
     st_tfs := 1%float;
     st_mirostat_mode := 0;
     st_mirostat_tau := 5%float;
     st_mirostat_eta := 0.125%float;
     st_ban_eos_token := ban_eos |}.

(** A handle on a legacy-format model, as [from_pretrained] leaves it. *)
Definition legacy_model : Llama := echo_model 1 llama_cpp_ggml_cuda.

Definition legacy_handle : LlamaCppModel := set_model __init__ legacy_model.

(** The arguments that [generate] computes for a prompt that fits, under
    [sampling ban_eos] and with all packages installed. *)
Definition args_for (p : string) (ban_eos : bool) : completion_args :=
  {| prompt := p;
     max_tokens := 200;
     temperature := 0.75%float;
     top_p := 0.875%float;
     top_k := 20;
     repeat_penalty := 1.25%float;
     tfs_z := 1%float;
     mirostat_mode := 0;
     mirostat_tau := 5%float;
     mirostat_eta := 0.125%float;
     stream := true;
     logits_processor_arg :=
       if ban_eos then
         Some {| lpl_module := llama_cpp_cuda;
                 lpl_processors := [ban_eos_logits_processor 2] |}
       else None |}.

Definition ban_eos_list : LogitsProcessorList :=
  {| lpl_module := llama_cpp_cuda;
     lpl_processors := [ban_eos_logits_processor 2] |}.

(** A heap with one logits vector of three entries, before and after the
    processor for token id 2. *)
Definition logits_heap : heap := {[ 1%positive := [0.5; 1; 2]%float ]}.
Definition banned_heap : heap := {[ 1%positive := [0.5%float; 1%float; neg_infinity] ]}.

End Sample.

(** ** Auxiliary definitions for the proofs *)

Module Aux.

(** The value of a decimal numeral read from the left with accumulator
    [acc], as [int_digits] computes it. *)
Fixpoint uint_val (d : uint) (acc : Z) : Z :=
  match d with
  | Nil => acc
  | D0 l => uint_val l (10 * acc + 0)
  | D1 l => uint_val l (10 * acc + 1)
  | D2 l => uint_val l (10 * acc + 2)
  | D3 l => uint_val l (10 * acc + 3)
  | D4 l => uint_val l (10 * acc + 4)
  | D5 l => uint_val l (10 * acc + 5)
  | D6 l => uint_val l (10 * acc + 6)
  | D7 l => uint_val l (10 * acc + 7)
  | D8 l => uint_val l (10 * acc + 8)
  | D9 l => uint_val l (10 * acc + 9)
  end.

(** Every character of [s] satisfies [p]. *)
Fixpoint all_chars (p : ascii -> bool) (s : string) : bool :=
  match s with
  | EmptyString => true
  | String c s' => p c && all_chars p s'
  end.

(** The characters of a decimal numeral: digits and the minus sign. *)
Definition numeral_char (c : ascii) : bool :=
  ((48 <=? code c) && (code c <=? 57)) || (code c =? 45).

(** The effect on the callback's state of the calls made for the texts
    [ts], in order; none when there is no callback. *)
Definition callback_run {W} (callback : option (string -> W -> W))
    (ts : list string) (w : W) : W :=
  match callback with
  | Some f => foldl (fun w t => f t w) w ts
  | None => w
  end.

(** A callback that records the texts it is called with. *)
Definition record_call (t : string) (log : list string) : list string := log ++ [t].

End Aux.

Import Aux.

(** ** Further auxiliary definitions and sample data *)

Module Aux2.

(** The number of occurrences of the character [c] in [s]. *)
Fixpoint count_char (c : ascii) (s : string) : nat :=
  match s with
  | EmptyString => 0
  | String x s' => ((if Ascii.eqb x c then 1 else 0) + count_char c s')%nat
  end.

(** The keys of the dictionary literal of [from_pretrained], and the two
    more of [ggml_params]. *)
Definition common_keys : gset string :=
  list_to_set
    ["model_path"; "n_ctx"; "seed"; "n_threads"; "n_batch"; "use_mmap";
     "use_mlock"; "mul_mat_q"; "low_vram"; "n_gpu_layers"; "rope_freq_base";
     "tensor_split"; "rope_freq_scale"].

Definition ggml_keys : gset string := list_to_set ["n_gqa"; "rms_norm_eps"].

(** The keyword arguments that [from_pretrained] passes for [path], once
    the dictionary literal [p] is built: lines 94-99. *)
Definition kwargs_of {R : Runtime} {L : LoadEnv} (path : string)
    (p : gmap string value) : gmap string value :=
  if is_gguf path then p else ggml_params ∪ p.

End Aux2.

Import Aux2.

Module LoaderSample.

(** Stand-ins for the interpreter's conversions, exact on the small
    non-negative integers of the examples. *)
Definition small_float (n : Z) : float :=
  Nat.iter (Z.to_nat n) (fun f => (f + 1)%float) 0%float.

Definition sample_float_of_str (s : string) : load_result float :=
  match int s with
  | Ok n => Loaded (small_float n)
  | Raise e => Failed (Builtin e)
  end.

(** A loading environment with the given capacity, tensor split, thread
    count and compression factor; every [Llama] class builds the echo model
    with identity 7. *)
Definition env (capacity tensor_split : option string) (threads compress : Z)
    : LoadEnv :=
  {| args_cache_capacity := capacity;
     args_tensor_split := tensor_split;
     args_n_ctx := 2048;
     args_llama_cpp_seed := 0;
     args_threads := threads;
     args_n_batch := 512;
     args_no_mmap := false;
     args_mlock := false;
     args_mul_mat_q := true;
     args_low_vram := false;
     args_n_gpu_layers := 0;
     args_alpha_value := 1%float;
     args_rope_freq_base := 0;
     args_compress_pos_emb := compress;
     args_n_gqa := 0;
     args_rms_norm_eps := 0%float;
     float_of_str := sample_float_of_str;
     float_of_int := fun n => Loaded (small_float n);
     get_rope_freq_base := fun alpha base => if 0 <? base then VInt base else VFloat 10000%float;
     Llama_class := fun lib kwargs => Loaded (Sample.echo_model 7 lib) |}.

(** A runtime in which only [llama_cpp] could be imported. *)
Definition cpu_only : imports :=
  {| imports_ggml := false; cuda_is_available := false; version_hip := false;
     imports_cuda := false; imports_ggml_cuda := false |}.

Definition cpu_runtime : Runtime :=
  {| str_encode := fun s => Ok (String.list_byte_of_string s);
     bytes_decode := Sample.ascii_decode;
     get_max_prompt_length := fun _ => 2048;
     module_imports := cpu_only;
     shared_args_cpu := false;
     is_gguf := Sample.gguf_by_name;
     stop_everything := Sample.never |}.

Definition fresh : backend := {| llama_calls := []; cache_of := ∅ |}.

(** Loading a GGUF file with a cache of 1GiB, and a legacy file without a
    cache, where only [llama_cpp] is installed. *)
Definition gguf_load : load_result (LlamaCppModel * LlamaCppModel) * backend :=
  from_pretrained (R := cpu_runtime) (L := env (Some "1GiB") None 0 1)
    "model.gguf" fresh.

Definition legacy_load : load_result (LlamaCppModel * LlamaCppModel) * backend :=
  from_pretrained (R := cpu_runtime) (L := env None (Some " 1,3 ") 4 1)
    "model.bin" fresh.

Definition loaded_handle : LlamaCppModel :=
  set_model __init__ (Sample.echo_model 7 llama_cpp).

End LoaderSample.

(** ** The decoding loop of the engine *)

Module Decoding.

(** The model and the sampler of an engine: the logits of the model for
    the token ids so far, one entry per vocabulary token, and the token
    that the sampler draws from a logits vector. *)
Record engine : Type := {
  logits_of : list Z -> list float;
  sample : list float -> Z
}.

(** A [LogitsProcessorList] called on the token ids so far and the logits:
    every step function in turn, each on the logits the one before
    returned. *)
Fixpoint run_processors (processors : list logits_processor) (input_ids : list Z)
    (scores : loc) (h : heap) : result loc * heap :=
  match processors with
  | [] => (Ok scores, h)
  | processor :: rest =>
      match processor input_ids scores h with
      | (Ok scores', h') => run_processors rest input_ids scores' h'
      | (Raise e, h') => (Raise e, h')
      end
  end.

(** The logits of one decoding step after the [logits_processor] argument
    of [create_completion] was applied to them; the logits vector of the
    step is the object at address 1 of a heap of its own. *)
Definition processed (lp : option LogitsProcessorList) (input_ids : list Z)
    (logits : list float) : result (list float) :=
  match lp with
  | None => Ok logits
  | Some lp =>
      match run_processors (lpl_processors lp) input_ids 1%positive
              {[ 1%positive := logits ]} with
      | (Ok scores, h) =>
          match h !! scores with
          | Some v => Ok v
          | None => Raise DanglingReference
          end
      | (Raise e, _) => Raise e
      end
  end.

(** Modelled from the spec: the decoding loop of the external engine
    behind [create_completion], which is not part of the sources at hand.
    By section 4.4 (step 4), section 6 (f) and section 8 of the spec, at
    every decoding step the engine passes the logits of the model through
    the step functions of the logits-processor list and samples the next
    token from the result; the generation ends when the model emits the
    end-of-sequence token or when [max_tokens] tokens were generated.  The
    result is the list of the tokens generated. *)
Fixpoint decoding_loop (E : engine) (eos : Z) (lp : option LogitsProcessorList)
    (max_tokens : nat) (input_ids : list Z) : result (list Z) :=
  match max_tokens with
  | O => Ok []
  | S n =>
      logits ← processed lp input_ids (logits_of E input_ids);
      let token := sample E logits in
      if token =? eos then Ok []
      else
        rest ← decoding_loop E eos lp n (input_ids ++ [token]);
        Ok (token :: rest)
  end.

(** Modelled from the spec: the contract of the sampler that makes a
    logit of negative infinity a ban (section 4.4, step 4): a token whose
    logit is negative infinity is never drawn. *)
Definition never_draws_banned (E : engine) : Prop :=
  forall v : list float,
    0 <= sample E v -> v !! Z.to_nat (sample E v) <> Some neg_infinity.

End Decoding.

Import Decoding.

Module DecodingSample.

(** A greedy sampler: the first token of greatest logit among those whose
    logit is not negative infinity, and -1 (no token) when there is none. *)
Fixpoint greedy (v : list float) (i best : Z) (best_logit : float) : Z :=
  match v with
  | [] => best
  | x :: v' =>
      if PrimFloat.eqb x neg_infinity then greedy v' (i + 1) best best_logit
      else if (best <? 0) || PrimFloat.ltb best_logit x then greedy v' (i + 1) i x
      else greedy v' (i + 1) best best_logit
  end.

(** An engine over a vocabulary of three tokens whose model always prefers
    token 2, the end-of-sequence token of the echo model: left to itself it
    stops at the first step. *)
Definition eager : engine :=
  {| logits_of := fun _ => [0.5; 1; 2]%float;
     sample := fun v => greedy v 0 (-1) 0%float |}.

End DecodingSample.

(** * Properties *)

(** ** Cache capacity *)

Section CacheCapacityFacts.

Lemma uint_val_of_uint_acc d : forall p,
  uint_val d (Z.pos p) = Z.pos (Pos.of_uint_acc d p).
Proof.
  induction d; intros p; simpl; try reflexivity;
    rewrite <- IHd; f_equal; lia.
Qed.

Lemma uint_val_of_uint d : uint_val d 0 = Z.of_uint d.
Proof.
  unfold Z.of_uint.
  induction d; simpl; try reflexivity; try assumption;
    apply (uint_val_of_uint_acc d).
Qed.

Lemma int_digits_numeral d : forall prev acc,
  d <> Nil ->
  int_digits (NilEmpty.string_of_uint d) prev acc = Ok (uint_val d acc, EmptyString).
Proof.
  induction d; intros prev acc Hd; [congruence | ..];
    (change (NilEmpty.string_of_uint ?x) with (NilEmpty.string_of_uint x);
     cbn [NilEmpty.string_of_uint uint_val int_digits];
     match goal with
     | |- context [digit_value ?c] =>
         change (digit_value c) with (Some (code c - 48));
         change (code c - 48) with ltac:(let v := eval vm_compute in (code c - 48) in exact v)
     end;
     destruct d; [reflexivity | apply IHd; discriminate ..]).
Qed.

Lemma int_digit_start (s : string) c s' :
  s = String c s' ->
  (48 <=? code c) && (code c <=? 57) = true ->
  int s =
    ('(n, rest) ← int_digits s "000"%char 0;
     match skip_space rest with
     | EmptyString => Ok (1 * n)
     | String _ _ => Raise ValueError
     end) /\
  int (String "-" s) =
    ('(n, rest) ← int_digits s "000"%char 0;
     match skip_space rest with
     | EmptyString => Ok (-1 * n)
     | String _ _ => Raise ValueError
     end).
Proof.
  intros -> Hc.
  assert (Hr : 48 <= code c <= 57) by lia.
  assert (Hs : is_int_space c = false) by (unfold is_int_space; lia).
  assert (Hd : digit_value c = Some (code c - 48))
    by (unfold digit_value; rewrite Hc; reflexivity).
  split.
  - unfold int. cbn [skip_space]. rewrite Hs. cbn [int_sign].
    destruct (code c =? 43) eqn:E1; [lia |].
    destruct (code c =? 45) eqn:E2; [lia |].
    rewrite Hd. reflexivity.
  - unfold int. cbn [skip_space].
    change (is_int_space "-") with false. cbn [int_sign].
    change (code "-" =? 43) with false. change (code "-" =? 45) with true.
    cbv iota. rewrite Hd. reflexivity.
Qed.

Lemma int_numeral d :
  d <> Nil ->
  int (NilEmpty.string_of_uint d) = Ok (Z.of_uint d) /\
  int (String "-" (NilEmpty.string_of_uint d)) = Ok (- Z.of_uint d).
Proof.
  intros Hd. rewrite <- uint_val_of_uint.
  pose proof (int_digits_numeral d "000"%char 0 Hd) as E.
  assert (exists c s', NilEmpty.string_of_uint d = String c s' /\
                       (48 <=? code c) && (code c <=? 57) = true) as (c & s' & Es & Hc)
    by (destruct d; [congruence | ..]; eexists _, _; split; reflexivity).
  destruct (int_digit_start _ c s' Es Hc) as [-> ->].
  rewrite E. cbn. split; f_equal; lia.
Qed.

Lemma int_str_of_int n : int (str_of_int n) = Ok n.
Proof.
  unfold str_of_int.
  rewrite <- (DecimalZ.of_to n) at 2.
  destruct (Z.to_int n) as [d | d] eqn:E; cbn [NilZero.string_of_int Z.of_int].
  - destruct d; [reflexivity | ..];
      (eapply proj1, int_numeral; discriminate).
  - assert (d <> Nil) as Hd.
    { destruct n as [| p | p]; cbn in E; try discriminate.
      injection E as <-. apply DecimalPos.Unsigned.to_uint_nonnil. }
    destruct d; [congruence | ..];
      (eapply proj2, int_numeral; discriminate).
Qed.

Lemma numeral_char_not_letter c :
  numeral_char c = true -> is_ascii_letter c = false.
Proof. unfold numeral_char, is_ascii_letter. lia. Qed.

Lemma string_of_uint_numeral d :
  all_chars numeral_char (NilEmpty.string_of_uint d) = true.
Proof. induction d; cbn [NilEmpty.string_of_uint all_chars]; auto. Qed.

Lemma str_of_int_numeral n : all_chars numeral_char (str_of_int n) = true.
Proof.
  unfold str_of_int.
  destruct (Z.to_int n) as [d | d]; cbn [NilZero.string_of_int].
  - destruct d; try reflexivity; apply string_of_uint_numeral.
  - destruct d; try reflexivity;
      (change (all_chars numeral_char (String "-" (NilZero.string_of_uint ?x)))
         with (all_chars numeral_char (NilZero.string_of_uint x));
       apply string_of_uint_numeral).
Qed.

Lemma append_cons c s t : String c s +:+ t = String c (s +:+ t).
Proof. reflexivity. Qed.

Lemma append_empty_l t : "" +:+ t = t.
Proof. reflexivity. Qed.

Lemma re_sub_letters_app s t :
  all_chars numeral_char s = true ->
  re_sub_letters (s +:+ t) = s +:+ re_sub_letters t.
Proof.
  induction s as [| c s IH]; cbn [all_chars]; [done |].
  intros [Hc Hs]%andb_true_iff.
  rewrite !append_cons. cbn [re_sub_letters].
  rewrite (numeral_char_not_letter c Hc), (IH Hs). reflexivity.
Qed.

Lemma prefix_refl s : String.prefix s s = true.
Proof.
  induction s as [| c s IH]; cbn; [done |].
  destruct (ascii_dec c c); [assumption | congruence].
Qed.

Lemma contains_suffix sub s : contains sub (s +:+ sub) = true.
Proof.
  induction s as [| c s IH].
  - rewrite append_empty_l.
    destruct sub; cbn [contains]; rewrite prefix_refl; reflexivity.
  - rewrite append_cons. cbn [contains]. rewrite IH. apply orb_true_r.
Qed.

Lemma contains_after_numeral a sub s t :
  numeral_char a = false ->
  all_chars numeral_char s = true ->
  contains (String a sub) (s +:+ t) = contains (String a sub) t.
Proof.
  intros Ha. induction s as [| c s IH]; cbn [all_chars]; [done |].
  intros [Hc Hs]%andb_true_iff.
  rewrite append_cons. cbn [contains String.prefix].
  destruct (ascii_dec a c) as [-> | _]; [congruence |].
  cbn [orb]. apply IH, Hs.
Qed.

Lemma append_empty_r s : s +:+ "" = s.
Proof. induction s as [| c s IH]; [done |]. rewrite append_cons. congruence. Qed.

End CacheCapacityFacts.

(** C4. Cache-capacity parsing uses decimal multipliers: for every integer
    [n], [str(n)+"GiB"] parses to [n * 1000000000], [str(n)+"MiB"] to
    [n * 1000000], and the bare numeral [str(n)] to [n] bytes; "2GiB",
    "500MiB" and "12345" yield 2000000000, 500000000 and 12345. *)
Theorem cache_capacity_decimal_multipliers :
  (forall n : Z,
     cache_capacity (Some (str_of_int n +:+ "GiB")) = Ok (n * 1000000000) /\
     cache_capacity (Some (str_of_int n +:+ "MiB")) = Ok (n * 1000000) /\
     cache_capacity (Some (str_of_int n)) = Ok n) /\
  cache_capacity (Some "2GiB") = Ok 2000000000 /\
  cache_capacity (Some "500MiB") = Ok 500000000 /\
  cache_capacity (Some "12345") = Ok 12345.
Proof.
  split; [| repeat split; reflexivity].
  intros n. pose proof (str_of_int_numeral n) as Hn.
  unfold cache_capacity. repeat split.
  - rewrite contains_suffix, re_sub_letters_app by assumption.
    cbn [re_sub_letters]. change (is_ascii_letter _) with true. cbv iota.
    cbn [re_sub_letters]. rewrite append_empty_r, int_str_of_int.
    cbn. f_equal. lia.
  - rewrite (contains_after_numeral "G" "iB" _ "MiB") by done.
    change (contains "GiB" "MiB") with false. cbv iota.
    rewrite contains_suffix, re_sub_letters_app by assumption.
    cbn [re_sub_letters]. change (is_ascii_letter _) with true. cbv iota.
    cbn [re_sub_letters]. rewrite append_empty_r, int_str_of_int.
    cbn. f_equal. lia.
  - pose proof (contains_after_numeral "G" "iB" _ "" eq_refl Hn) as HG.
    pose proof (contains_after_numeral "M" "iB" _ "" eq_refl Hn) as HM.
    rewrite append_empty_r in HG, HM. rewrite HG, HM.
    cbn. apply int_str_of_int.
Qed.

(** C5 (the code at the empty string). An absent capacity gives 0, but
    the empty string takes the [else] branch and [int('')] raises
    [ValueError]. *)
Theorem cache_capacity_empty_string_raises :
  cache_capacity None = Ok 0 /\
  cache_capacity (Some "") = Raise ValueError.
Proof. split; reflexivity. Qed.

(** ** Backend resolution *)

(** C3 (counterexample). With CUDA hardware present and not disabled, the
    accelerated legacy module loaded but the accelerated modern one not,
    the table of section 4.1 resolves a legacy model to the accelerated
    legacy variant; the code resolves it to the CPU legacy variant. *)
Lemma resolver_departs_from_table :
  let e := Sample.only_legacy_cuda in
  let code := llama_cpp_lib (import_block e) false Sample.gguf_by_name (Some "model.bin") in
  let table :=
    resolution_table (accelerated e false) (Sample.gguf_by_name "model.bin")
      (module_loaded e) in
  variant_of <$> code = Some CPU_legacy /\
  table = Accelerated_legacy /\
  variant_of <$> code <> Some table.
Proof. intros e code table. split; [| split]; [reflexivity | reflexivity | discriminate]. Qed.

Lemma llama_cpp_lib_default_modern e args_cpu is_gguf :
  exists lib,
    llama_cpp_lib (import_block e) args_cpu is_gguf None = Some lib /\
    family_of lib = Modern.
Proof.
  unfold llama_cpp_lib, import_block.
  destruct (cuda_is_available e && negb (version_hip e)); cbn.
  - destruct (imports_cuda e), args_cpu; cbn; eauto.
  - rewrite orb_true_r. eauto.
Qed.

(** What a successful [completion_call] has gone through. *)
Lemma completion_call_inv `{Runtime} self prompt st m args :
  completion_call self prompt st = Ok (m, args) ->
  exists lib p p' encoded,
    llama_cpp_lib (import_block module_imports) shared_args_cpu is_gguf None = Some lib /\
    match prompt with Str s => Ok s | Bytes b => bytes_decode b end = Ok p /\
    str_encode p = Ok encoded /\
    model self = Some m /\
    bytes_decode (detokenize m (truncate (tokenize m encoded) st)) = Ok p' /\
    args = {| prompt := p';
              max_tokens := st_max_new_tokens st;
              temperature := st_temperature st;
              top_p := st_top_p st;
              top_k := st_top_k st;
              repeat_penalty := st_repetition_penalty st;
              tfs_z := st_tfs st;
              mirostat_mode := st_mirostat_mode st;
              mirostat_tau := st_mirostat_tau st;
              mirostat_eta := st_mirostat_eta st;
              stream := true;
              logits_processor_arg :=
                if st_ban_eos_token st then
                  Some {| lpl_module := lib;
                          lpl_processors :=
                            [ban_eos_logits_processor (token_eos m)] |}
                else None |}.
Proof.
  unfold completion_call, encode, decode, self_model. intros Hcall.
  destruct (llama_cpp_lib (import_block module_imports) shared_args_cpu is_gguf None)
    as [lib |] eqn:Elib; [| discriminate].
  cbn in Hcall.
  destruct (match prompt with Str s => Ok s | Bytes b => bytes_decode b end)
    as [p |] eqn:Ep; [| discriminate].
  cbn in Hcall.
  destruct (str_encode p) as [encoded |] eqn:Ee; [| discriminate]. cbn in Hcall.
  destruct (model self) as [m' |] eqn:Em; [| discriminate]. cbn in Hcall.
  destruct (bytes_decode _) as [p' |] eqn:Ep' in Hcall; [| discriminate].
  cbn in Hcall. injection Hcall as <- <-.
  exists lib, p, p', encoded. repeat split; assumption.
Qed.

(** C3 (amended). For every import outcome, [cpu] flag, format detector and
    model file, the resolver returns a module, never [None]: when CUDA is
    available and not disabled and the accelerated modern module loaded, it
    is the accelerated modern module for a modern model and the accelerated
    legacy module, or the accelerated modern one if that failed to load, for
    a legacy model; in every other case it is the CPU modern module for a
    modern model and the CPU legacy module, or the CPU modern one if that
    failed to load, for a legacy model. *)
Theorem resolver_resolution :
  forall (e : imports) (args_cpu : bool) (is_gguf : string -> bool)
         (model_file : option string),
    llama_cpp_lib (import_block e) args_cpu is_gguf model_file =
    Some
      (let modern :=
         match model_file with
         | Some f => is_gguf f
         | None => true
         end in
       if accelerated e args_cpu && imports_cuda e then
         if modern then llama_cpp_cuda
         else if imports_ggml_cuda e then llama_cpp_ggml_cuda else llama_cpp_cuda
       else
         if modern then llama_cpp
         else if imports_ggml e then llama_cpp_ggml else llama_cpp).
Proof.
  intros [ggml cuda hip icuda iggml_cuda] cpu is_gguf file.
  unfold llama_cpp_lib, import_block, accelerated; cbn.
  destruct (match file with Some f => is_gguf f | None => true end).
  - destruct cuda, hip, icuda, cpu; reflexivity.
  - destruct ggml, cuda, hip, icuda, iggml_cuda, cpu; reflexivity.
Qed.

(** C10. Called without a model file, the resolver treats the model as
    modern (GGUF): it answers as it does for a file that the detector takes
    for GGUF, and the module it returns is of the modern family.  So the
    [LogitsProcessorList] that [generate] passes to the backend comes from a
    modern-family module, whatever the module and format family of the
    loaded model. *)
Theorem logits_processor_class_is_modern :
  (forall (e : imports) (args_cpu : bool) (is_gguf : string -> bool),
     (forall f, is_gguf f = true ->
        llama_cpp_lib (import_block e) args_cpu is_gguf None =
        llama_cpp_lib (import_block e) args_cpu is_gguf (Some f)) /\
     exists lib,
       llama_cpp_lib (import_block e) args_cpu is_gguf None = Some lib /\
       family_of lib = Modern) /\
  (forall (R : Runtime) (self : LlamaCppModel) (prompt : str_or_bytes) (st : state)
          (m : Llama) (args : completion_args) (lp : LogitsProcessorList),
     completion_call self prompt st = Ok (m, args) ->
     logits_processor_arg args = Some lp ->
     llama_cpp_lib (import_block module_imports) shared_args_cpu is_gguf None
       = Some (lpl_module lp) /\
     family_of (lpl_module lp) = Modern).
Proof.
  split.
  - intros e cpu g. split.
    + intros f Hf. unfold llama_cpp_lib. rewrite Hf. reflexivity.
    + apply llama_cpp_lib_default_modern.
  - intros R self prompt st m args lp Hcall Hlp.
    destruct (completion_call_inv _ _ _ _ _ Hcall)
      as (lib & p & p' & encoded & Elib & _ & _ & _ & _ & ->).
    cbn in Hlp. destruct (st_ban_eos_token st); [| discriminate].
    injection Hlp as <-. cbn. split; [assumption |].
    destruct (llama_cpp_lib_default_modern module_imports shared_args_cpu is_gguf)
      as (lib' & Elib' & Hfam).
    congruence.
Qed.

(** A legacy-format model on the accelerated legacy module, and a modern
    [LogitsProcessorList] all the same. *)
Lemma logits_processor_class_is_modern_witness :
  Sample.gguf_by_name "model.gguf" = true /\
  llama_cpp_lib (import_block Sample.all_packages) false Sample.gguf_by_name None =
  llama_cpp_lib (import_block Sample.all_packages) false Sample.gguf_by_name
    (Some "model.gguf") /\
  completion_call (R := Sample.runtime 2048 Sample.never) Sample.legacy_handle
    (Str "hi") (Sample.sampling true)
    = Ok (Sample.legacy_model, Sample.args_for "hi" true) /\
  logits_processor_arg (Sample.args_for "hi" true) = Some Sample.ban_eos_list /\
  family_of (llama_module Sample.legacy_model) = Legacy /\
  family_of (lpl_module Sample.ban_eos_list) = Modern.
Proof.
  destruct logits_processor_class_is_modern as [Hdefault Hclass].
  split; [reflexivity |].
  split.
  { exact (proj1 (Hdefault Sample.all_packages false Sample.gguf_by_name)
             "model.gguf" eq_refl). }
  split; [reflexivity |]. split; [reflexivity |]. split; [reflexivity |].
  exact (proj2 (Hclass (Sample.runtime 2048 Sample.never) Sample.legacy_handle
                  (Str "hi") (Sample.sampling true) Sample.legacy_model
                  (Sample.args_for "hi" true) Sample.ban_eos_list eq_refl eq_refl)).
Defined.

(** ** The logits processor *)

Section LogitsFacts.

Lemma index_bound {A} (l : list A) i j : index l i = Ok j -> (j < length l)%nat.
Proof.
  unfold index. destruct (i <? 0) eqn:Ei;
    destruct (_ && _) eqn:Eb; intros [= <-]; lia.
Qed.

Lemma setitem_ok {A} (l : list A) i x j :
  index l i = Ok j -> setitem l i x = Ok (<[j := x]> l).
Proof. unfold setitem. intros ->. reflexivity. Qed.

Lemma setitem_raise {A} (l : list A) i x e :
  index l i = Raise e -> setitem l i x = Raise e.
Proof. unfold setitem. intros ->. reflexivity. Qed.

Lemma neg_inf_value : float_neg float_inf = neg_infinity.
Proof. reflexivity. Qed.

(** The two outcomes of the processor on a live logits object. *)
Lemma ban_eos_outcome eos_token input_ids logits (h : heap) v :
  h !! logits = Some v ->
  (exists j, index v eos_token = Ok j /\
     ban_eos_logits_processor eos_token input_ids logits h =
       (Ok logits, <[logits := <[j := neg_infinity]> v]> h)) \/
  (exists e, index v eos_token = Raise e /\
     ban_eos_logits_processor eos_token input_ids logits h = (Raise e, h)).
Proof.
  intros Hv. unfold ban_eos_logits_processor. rewrite Hv.
  destruct (index v eos_token) as [j | e] eqn:Ei.
  - left. exists j. rewrite (setitem_ok _ _ _ _ Ei). auto.
  - right. exists e. rewrite (setitem_raise _ _ _ _ Ei). auto.
Qed.

End LogitsFacts.

(** C9. On every logits vector and for every end-of-sequence token id, the
    processor leaves every entry other than the one at the end-of-sequence
    index unchanged (and the length, and every other object of the heap);
    what it returns is the very object it was given, mutated in place; and
    the token ids so far play no part.  It returns whenever the token id
    indexes the vector. *)
Theorem ban_eos_frame :
  forall (eos_token : Z) (input_ids : list Z) (logits : loc) (h : heap)
         (v : list float) (r : result loc) (h' : heap),
    h !! logits = Some v ->
    ban_eos_logits_processor eos_token input_ids logits h = (r, h') ->
    (exists v', h' !! logits = Some v' /\ length v' = length v /\
       forall i : nat, index v eos_token <> Ok i -> v' !! i = v !! i) /\
    (forall other : loc, other <> logits -> h' !! other = h !! other) /\
    (forall returned : loc, r = Ok returned -> returned = logits) /\
    (forall j : nat, index v eos_token = Ok j ->
       r = Ok logits /\ h' = <[logits := <[j := neg_infinity]> v]> h) /\
    (forall input_ids' : list Z,
       ban_eos_logits_processor eos_token input_ids' logits h = (r, h')).
Proof.
  intros eos ids l h v r h' Hv Hrun.
  destruct (ban_eos_outcome eos ids l h v Hv) as [(j & Ej & E) | (e & Ee & E)];
    rewrite E in Hrun; injection Hrun as <- <-.
  - split; [| split; [| split; [| split]]].
    + exists (<[j := neg_infinity]> v). rewrite lookup_insert_eq.
      split; [reflexivity |]. split; [apply length_insert |].
      intros i Hi. apply list_lookup_insert_ne. congruence.
    + intros other Ho. apply lookup_insert_ne. congruence.
    + intros returned [= <-]. reflexivity.
    + intros j' Ej'. rewrite Ej in Ej'. injection Ej' as <-. auto.
    + intros ids'. rewrite <- E. reflexivity.
  - split; [| split; [| split; [| split]]].
    + exists v. auto.
    + auto.
    + intros returned [=].
    + intros j Ej. congruence.
    + intros ids'. rewrite <- E. reflexivity.
Qed.

Lemma ban_eos_frame_witness :
  Sample.logits_heap !! 1%positive = Some [0.5; 1; 2]%float /\
  ban_eos_logits_processor 2 [5; 6] 1%positive Sample.logits_heap
    = (Ok 1%positive, Sample.banned_heap) /\
  index [0.5; 1; 2]%float 2 = Ok 2%nat /\
  Sample.banned_heap
    = <[1%positive := <[2%nat := neg_infinity]> [0.5; 1; 2]%float]> Sample.logits_heap /\
  (exists v', Sample.banned_heap !! 1%positive = Some v' /\
              v' !! 0%nat = Some 0.5%float /\ v' !! 1%nat = Some 1%float) /\
  Sample.banned_heap !! 7%positive = Sample.logits_heap !! 7%positive /\
  ban_eos_logits_processor 2 [] 1%positive Sample.logits_heap
    = (Ok 1%positive, Sample.banned_heap).
Proof.
  assert (H1 : Sample.logits_heap !! 1%positive = Some [0.5; 1; 2]%float)
    by reflexivity.
  assert (H2 : ban_eos_logits_processor 2 [5; 6] 1%positive Sample.logits_heap
               = (Ok 1%positive, Sample.banned_heap)) by reflexivity.
  assert (H3 : index [0.5; 1; 2]%float 2 = Ok 2%nat) by reflexivity.
  destruct (ban_eos_frame 2 [5; 6] 1%positive Sample.logits_heap _ _ _ H1 H2)
    as ((v' & Hv' & _ & Hrest) & Hother & _ & Hset & Hids).
  split; [exact H1 |]. split; [exact H2 |]. split; [exact H3 |].
  split; [exact (proj2 (Hset 2%nat H3)) |].
  split.
  { exists v'. split; [exact Hv' |].
    split; [exact (Hrest 0%nat ltac:(discriminate))
           | exact (Hrest 1%nat ltac:(discriminate))]. }
  split; [exact (Hother 7%positive ltac:(discriminate)) | exact (Hids [])].
Defined.

(** ** The generation engine *)

Section DecodingFacts.

Lemma index_in_range {A} (l : list A) (i : Z) :
  0 <= i < Z.of_nat (length l) -> index l i = Ok (Z.to_nat i).
Proof.
  intros Hi. unfold index.
  destruct (i <? 0) eqn:E; [lia |].
  destruct ((0 <=? i) && (i <? Z.of_nat (length l))) eqn:E'; [reflexivity | lia].
Qed.

(** On a logits vector that the token id indexes, the processor writes
    negative infinity at the token id and returns the object. *)
Lemma ban_eos_in_range eos_token input_ids logits (h : heap) v :
  h !! logits = Some v ->
  0 <= eos_token < Z.of_nat (length v) ->
  ban_eos_logits_processor eos_token input_ids logits h =
    (Ok logits, <[logits := <[Z.to_nat eos_token := neg_infinity]> v]> h) /\
  <[Z.to_nat eos_token := neg_infinity]> v !! Z.to_nat eos_token = Some neg_infinity.
Proof.
  intros Hv Hi. split.
  - unfold ban_eos_logits_processor. rewrite Hv.
    rewrite (setitem_ok _ _ _ _ (index_in_range v eos_token Hi)). reflexivity.
  - apply list_lookup_insert_eq. lia.
Qed.

Lemma processed_ban (lp : LogitsProcessorList) eos_token input_ids v :
  lpl_processors lp = [ban_eos_logits_processor eos_token] ->
  0 <= eos_token < Z.of_nat (length v) ->
  processed (Some lp) input_ids v = Ok (<[Z.to_nat eos_token := neg_infinity]> v).
Proof.
  intros Hps Hi. unfold processed. rewrite Hps. cbn [run_processors].
  destruct (ban_eos_logits_processor _ _ _ _) as [r h'] eqn:Erun.
  destruct (ban_eos_in_range eos_token input_ids 1%positive {[ 1%positive := v ]} v
              (lookup_singleton_eq _ _) Hi) as [Eban _].
  assert (Eq : (r, h') =
               (Ok 1%positive,
                <[1%positive := <[Z.to_nat eos_token := neg_infinity]> v]>
                  ({[ 1%positive := v ]} : heap)))
    by (rewrite <- Erun; exact Eban).
  injection Eq as -> ->. rewrite lookup_insert_eq. reflexivity.
Qed.

(** With the ban in the list, a sampler that never draws a banned token
    never draws the end-of-sequence token, and the loop runs to the end. *)
Lemma decoding_runs_to_the_end (E : engine) (lp : LogitsProcessorList) eos_token :
  lpl_processors lp = [ban_eos_logits_processor eos_token] ->
  never_draws_banned E ->
  (forall ids, 0 <= eos_token < Z.of_nat (length (logits_of E ids))) ->
  forall (max_tokens : nat) (input_ids : list Z),
  exists tokens,
    decoding_loop E eos_token (Some lp) max_tokens input_ids = Ok tokens /\
    length tokens = max_tokens /\
    eos_token ∉ tokens.
Proof.
  intros Hps Hsampler Hvocab max_tokens.
  induction max_tokens as [| n IH]; intros ids.
  - exists []. split; [reflexivity |]. split; [reflexivity | apply not_elem_of_nil].
  - cbn [decoding_loop].
    rewrite (processed_ban lp eos_token ids _ Hps (Hvocab ids)).
    cbn [mbind result_bind bind].
    set (v' := <[Z.to_nat eos_token := neg_infinity]> (logits_of E ids)).
    destruct (sample E v' =? eos_token) eqn:Etoken.
    + exfalso. apply Z.eqb_eq in Etoken.
      apply (Hsampler v'); [pose proof (Hvocab ids); lia |].
      rewrite Etoken. unfold v'. apply list_lookup_insert_eq.
      pose proof (Hvocab ids). lia.
    + destruct (IH (ids ++ [sample E v'])) as (rest & -> & Hlen & Hnot).
      cbn [mbind result_bind bind]. eexists. split; [reflexivity |].
      split; [cbn; congruence |].
      apply not_elem_of_cons. split; [| assumption].
      apply Z.eqb_neq in Etoken. congruence.
Qed.

Lemma greedy_choice v : forall i best best_logit,
  DecodingSample.greedy v i best best_logit = best \/
  i <= DecodingSample.greedy v i best best_logit /\
  exists x,
    v !! Z.to_nat (DecodingSample.greedy v i best best_logit - i) = Some x /\
    PrimFloat.eqb x neg_infinity = false.
Proof.
  induction v as [| x v IH]; intros i best best_logit; [left; reflexivity |].
  cbn [DecodingSample.greedy].
  assert (Hlater : forall b bl,
            i + 1 <= DecodingSample.greedy v (i + 1) b bl /\
            (exists y, v !! Z.to_nat (DecodingSample.greedy v (i + 1) b bl - (i + 1))
                       = Some y /\ PrimFloat.eqb y neg_infinity = false) ->
            i <= DecodingSample.greedy v (i + 1) b bl /\
            exists y, (x :: v) !! Z.to_nat (DecodingSample.greedy v (i + 1) b bl - i)
                      = Some y /\ PrimFloat.eqb y neg_infinity = false).
  { intros b bl (Hle & y & Hy & Hne). split; [lia |]. exists y. split; [| exact Hne].
    replace (Z.to_nat (DecodingSample.greedy v (i + 1) b bl - i))
      with (S (Z.to_nat (DecodingSample.greedy v (i + 1) b bl - (i + 1)))) by lia.
    exact Hy. }
  destruct (PrimFloat.eqb x neg_infinity) eqn:Ex.
  - destruct (IH (i + 1) best best_logit) as [-> | H]; [left; reflexivity |].
    right. apply Hlater, H.
  - destruct ((best <? 0) || PrimFloat.ltb best_logit x).
    + right. destruct (IH (i + 1) i x) as [-> | H]; [| apply Hlater, H].
      split; [lia |]. exists x. rewrite Z.sub_diag. split; [reflexivity | exact Ex].
    + destruct (IH (i + 1) best best_logit) as [-> | H]; [left; reflexivity |].
      right. apply Hlater, H.
Qed.

Lemma eager_never_draws_banned : never_draws_banned DecodingSample.eager.
Proof.
  intros v Hdrawn Hbanned. cbn [sample DecodingSample.eager] in *.
  destruct (greedy_choice v 0 (-1) 0%float) as [E | (_ & x & Hx & Hne)]; [lia |].
  rewrite Z.sub_0_r in Hx. rewrite Hx in Hbanned. injection Hbanned as ->.
  discriminate Hne.
Qed.

End DecodingFacts.

(** C6. When [ban_eos_token] is set, the [logits_processor] argument that
    [generate] passes to [create_completion] is a list of one step, the
    end-of-sequence ban for the model's own end-of-sequence token id; at
    every decoding step, whatever the token ids so far and for every logits
    vector with an entry for that token id, the step returns the vector with
    negative infinity at the token id.  So an engine whose sampler never
    draws a token of logit negative infinity never emits the end-of-sequence
    token on its own: decoding with the argument passed, it generates the
    full number of new tokens asked for, none of them the end-of-sequence
    token.  When the flag is unset the argument is [None]. *)
Theorem ban_eos_processor_passed :
  forall (R : Runtime) (self : LlamaCppModel) (prompt : str_or_bytes) (st : state)
         (m : Llama) (args : completion_args),
    completion_call self prompt st = Ok (m, args) ->
    (forall W (callback : option (string -> W -> W)) (w : W),
       generate self prompt st callback w =
       (Ok (consume callback (create_completion m args) 0 "" w).1,
        (consume callback (create_completion m args) 0 "" w).2)) /\
    (st_ban_eos_token st = true ->
     exists lp,
       logits_processor_arg args = Some lp /\
       lpl_processors lp = [ban_eos_logits_processor (token_eos m)] /\
       (forall step, step ∈ lpl_processors lp ->
        forall (input_ids : list Z) (logits : loc) (h : heap) (v : list float),
          h !! logits = Some v ->
          0 <= token_eos m < Z.of_nat (length v) ->
          exists v',
            step input_ids logits h = (Ok logits, <[logits := v']> h) /\
            v' !! Z.to_nat (token_eos m) = Some neg_infinity) /\
       (forall (E : engine) (max_new_tokens : nat) (input_ids : list Z),
          never_draws_banned E ->
          (forall ids, 0 <= token_eos m < Z.of_nat (length (logits_of E ids))) ->
          exists tokens,
            decoding_loop E (token_eos m) (logits_processor_arg args)
              max_new_tokens input_ids = Ok tokens /\
            length tokens = max_new_tokens /\
            token_eos m ∉ tokens)) /\
    (st_ban_eos_token st = false -> logits_processor_arg args = None).
Proof.
  intros R self prompt st m args Hcall.
  split; [| split].
  - intros W callback w. unfold generate. rewrite Hcall.
    destruct (consume _ _ _ _ _). reflexivity.
  - intros Hban.
    destruct (completion_call_inv _ _ _ _ _ Hcall)
      as (lib & p & p' & encoded & _ & _ & _ & _ & _ & ->).
    cbn [logits_processor_arg]. rewrite Hban. eexists. split; [reflexivity |].
    cbn [lpl_processors]. split; [reflexivity |]. split.
    + intros step ->%list_elem_of_singleton ids l h v Hv Hi.
      exists (<[Z.to_nat (token_eos m) := neg_infinity]> v).
      apply (ban_eos_in_range (token_eos m) ids l h v Hv Hi).
    + intros E n ids Hsampler Hvocab.
      apply decoding_runs_to_the_end; [reflexivity | assumption ..].
  - intros Hban.
    destruct (completion_call_inv _ _ _ _ _ Hcall)
      as (lib & p & p' & encoded & _ & _ & _ & _ & _ & ->).
    cbn [logits_processor_arg]. rewrite Hban. reflexivity.
Qed.

Lemma ban_eos_processor_passed_witness :
  (completion_call (R := Sample.runtime 2048 Sample.never) Sample.legacy_handle
     (Str "hi") (Sample.sampling true)
     = Ok (Sample.legacy_model, Sample.args_for "hi" true) /\
   st_ban_eos_token (Sample.sampling true) = true /\
   logits_processor_arg (Sample.args_for "hi" true) = Some Sample.ban_eos_list /\
   Sample.logits_heap !! 1%positive = Some [0.5; 1; 2]%float /\
   0 <= token_eos Sample.legacy_model < Z.of_nat (length [0.5; 1; 2]%float) /\
   ban_eos_logits_processor (token_eos Sample.legacy_model) [5; 6] 1%positive
     Sample.logits_heap = (Ok 1%positive, Sample.banned_heap) /\
   (exists v',
      ban_eos_logits_processor (token_eos Sample.legacy_model) [5; 6] 1%positive
        Sample.logits_heap = (Ok 1%positive, <[1%positive := v']> Sample.logits_heap) /\
      v' !! Z.to_nat (token_eos Sample.legacy_model) = Some neg_infinity) /\
   never_draws_banned DecodingSample.eager /\
   decoding_loop DecodingSample.eager (token_eos Sample.legacy_model) None 3 [] = Ok [] /\
   decoding_loop DecodingSample.eager (token_eos Sample.legacy_model)
     (logits_processor_arg (Sample.args_for "hi" true)) 3 [] = Ok [1; 1; 1] /\
   exists tokens,
     decoding_loop DecodingSample.eager (token_eos Sample.legacy_model)
       (logits_processor_arg (Sample.args_for "hi" true)) 3 [] = Ok tokens /\
     length tokens = 3%nat /\
     token_eos Sample.legacy_model ∉ tokens) /\
  (completion_call (R := Sample.runtime 2048 Sample.never) Sample.legacy_handle
     (Str "hi") (Sample.sampling false)
     = Ok (Sample.legacy_model, Sample.args_for "hi" false) /\
   st_ban_eos_token (Sample.sampling false) = false /\
   logits_processor_arg (Sample.args_for "hi" false) = None).
Proof.
  assert (Hrange : 0 <= token_eos Sample.legacy_model
                   < Z.of_nat (length [0.5; 1; 2]%float)) by (cbn; lia).
  split.
  - destruct (proj1 (proj2 (ban_eos_processor_passed
                (Sample.runtime 2048 Sample.never) Sample.legacy_handle
                (Str "hi") (Sample.sampling true) Sample.legacy_model
                (Sample.args_for "hi" true) eq_refl)) eq_refl)
      as (lp & Hlp & Hps & Hstep & Hdecode).
    split; [reflexivity |]. split; [reflexivity |]. split; [reflexivity |].
    split; [reflexivity |]. split; [exact Hrange |]. split; [reflexivity |].
    split.
    { assert (Hin : ban_eos_logits_processor (token_eos Sample.legacy_model)
                      ∈ lpl_processors lp)
        by (rewrite Hps; apply list_elem_of_singleton; reflexivity).
      exact (Hstep _ Hin [5; 6] 1%positive Sample.logits_heap [0.5; 1; 2]%float
               eq_refl Hrange). }
    split; [exact eager_never_draws_banned |].
    split; [reflexivity |]. split; [reflexivity |].
    exact (Hdecode DecodingSample.eager 3%nat [] eager_never_draws_banned
             (fun _ => Hrange)).
  - split; [reflexivity |]. split; [reflexivity |].
    exact (proj2 (proj2 (ban_eos_processor_passed
             (Sample.runtime 2048 Sample.never) Sample.legacy_handle
             (Str "hi") (Sample.sampling false) Sample.legacy_model
             (Sample.args_for "hi" false) eq_refl)) eq_refl).
Defined.

Section ConsumeFacts.
Context {R : Runtime} {W : Type}.
Implicit Types (callback : option (string -> W -> W)) (w : W).

Lemma append_assoc (a b c : string) : (a +:+ b) +:+ c = a +:+ (b +:+ c).
Proof. induction a as [| x a IH]; [done |]. rewrite !append_cons. congruence. Qed.

Lemma callback_run_cons callback t ts w :
  callback_run callback (t :: ts) w =
  callback_run callback ts (match callback with Some f => f t w | None => w end).
Proof. destruct callback; reflexivity. Qed.

(** The loop consumes the chunks up to the first read of the flag that
    finds it set. *)
Lemma consume_take callback : forall chunks k reads output w,
  (forall i, (i < k)%nat -> stop_everything (reads + i) = false) ->
  ((k < length chunks)%nat -> stop_everything (reads + k) = true) ->
  consume callback chunks reads output w =
    (output +:+ concat_str (texts (take k chunks)),
     callback_run callback (texts (take k chunks)) w).
Proof.
  induction chunks as [| c rest IH]; intros k reads output w Hbefore Hat.
  - rewrite take_nil. cbn. rewrite append_empty_r. destruct callback; reflexivity.
  - destruct k as [| k].
    + cbn [consume take texts map concat_str fold_right].
      rewrite <- (Nat.add_0_r reads) at 1. rewrite Hat by (cbn; lia).
      rewrite append_empty_r. destruct callback; reflexivity.
    + cbn [consume]. rewrite <- (Nat.add_0_r reads) at 1.
      rewrite Hbefore by lia.
      rewrite (IH k (S reads)).
      * cbn [take texts map concat_str fold_right].
        rewrite append_assoc, callback_run_cons. reflexivity.
      * intros i Hi. replace (S reads + i)%nat with (reads + S i)%nat by lia.
        apply Hbefore. lia.
      * intros Hk. replace (S reads + k)%nat with (reads + S k)%nat by lia.
        apply Hat. cbn. lia.
Qed.

(** There always is such a read, or the stream ends first. *)
Lemma stop_point (n : nat) : forall reads,
  exists k, (k <= n)%nat /\
    (forall i, (i < k)%nat -> stop_everything (reads + i) = false) /\
    ((k < n)%nat -> stop_everything (reads + k) = true).
Proof.
  induction n as [| n IH]; intros reads.
  - exists 0%nat. split; [lia |]. split; intros; lia.
  - destruct (stop_everything reads) eqn:E.
    + exists 0%nat. split; [lia |]. split; [intros; lia |].
      intros _. rewrite Nat.add_0_r. exact E.
    + destruct (IH (S reads)) as (k & Hk & Hbefore & Hat).
      exists (S k). split; [lia |]. split.
      * intros [| i] Hi; [rewrite Nat.add_0_r; exact E |].
        replace (reads + S i)%nat with (S reads + i)%nat by lia.
        apply Hbefore. lia.
      * intros Hlt. replace (reads + S k)%nat with (S reads + k)%nat by lia.
        apply Hat. lia.
Qed.

End ConsumeFacts.

Lemma generate_take (R : Runtime) W self prompt st
    (callback : option (string -> W -> W)) (w : W) m args (k : nat) :
  completion_call self prompt st = Ok (m, args) ->
  (forall i, (i < k)%nat -> stop_everything i = false) ->
  ((k < length (create_completion m args))%nat -> stop_everything k = true) ->
  generate self prompt st callback w =
    (Ok (concat_str (texts (take k (create_completion m args)))),
     callback_run callback (texts (take k (create_completion m args))) w).
Proof.
  intros Hcall Hbefore Hat. unfold generate. rewrite Hcall.
  rewrite (consume_take callback _ k 0 "" w Hbefore Hat).
  rewrite append_empty_l. reflexivity.
Qed.

(** A request that raises before the backend is called consumes nothing
    and calls nothing. *)
Lemma generate_raises (R : Runtime) W self prompt st
    (callback : option (string -> W -> W)) (w : W) e :
  completion_call self prompt st = Raise e ->
  generate self prompt st callback w = (Raise e, w).
Proof. intros Hcall. unfold generate. rewrite Hcall. reflexivity. Qed.

(** C1. A request that reaches the backend returns the concatenation, in
    arrival order, of the texts of the chunks consumed from the stream, and
    the callback has been called once for each of them, in order, with its
    text: the consumed chunks are the first [k] of the stream, [k] being the
    first read of the cancellation flag that finds it set, or the length of
    the stream.  If the flag is never set they are all the chunks; if it is
    set at the first read the result is the empty string; if it is first set
    after [K] chunks the result is the concatenation of those [K]. *)
Theorem generate_returns_consumed_chunks :
  forall (R : Runtime) (W : Type) (self : LlamaCppModel) (prompt : str_or_bytes)
         (st : state) (callback : option (string -> W -> W)) (w : W)
         (m : Llama) (args : completion_args),
    completion_call self prompt st = Ok (m, args) ->
    (exists k : nat,
       (k <= length (create_completion m args))%nat /\
       (forall i, (i < k)%nat -> stop_everything i = false) /\
       ((k < length (create_completion m args))%nat -> stop_everything k = true) /\
       generate self prompt st callback w =
         (Ok (concat_str (texts (take k (create_completion m args)))),
          callback_run callback (texts (take k (create_completion m args))) w)) /\
    ((forall i, stop_everything i = false) ->
     generate self prompt st callback w =
       (Ok (concat_str (texts (create_completion m args))),
        callback_run callback (texts (create_completion m args)) w)) /\
    (stop_everything 0 = true ->
     generate self prompt st callback w = (Ok "", w)) /\
    (forall K : nat,
       (forall i, (i < K)%nat -> stop_everything i = false) ->
       stop_everything K = true ->
       generate self prompt st callback w =
         (Ok (concat_str (texts (take K (create_completion m args)))),
          callback_run callback (texts (take K (create_completion m args))) w)).
Proof.
  intros R W self prompt st callback w m args Hcall.
  split; [| split; [| split]].
  - destruct (stop_point (length (create_completion m args)) 0)
      as (k & Hk & Hbefore & Hat).
    exists k. repeat split; try assumption.
    apply generate_take; assumption.
  - intros Hnever.
    rewrite (generate_take R W self prompt st callback w m args
               (length (create_completion m args)) Hcall); [| auto | lia].
    rewrite firstn_all. reflexivity.
  - intros Hfirst.
    rewrite (generate_take R W self prompt st callback w m args 0 Hcall);
      [| intros; lia | auto].
    destruct callback; reflexivity.
  - intros K Hbefore Hat. apply generate_take; auto.
Qed.

Lemma generate_returns_consumed_chunks_witness :
  completion_call (R := Sample.runtime 2048 (Sample.after 2)) Sample.legacy_handle
    (Str "hello") (Sample.sampling false)
    = Ok (Sample.legacy_model, Sample.args_for "hello" false) /\
  texts (create_completion Sample.legacy_model (Sample.args_for "hello" false))
    = ["h"; "e"; "l"; "l"; "o"] /\
  (forall i, (i < 2)%nat -> Sample.after 2 i = false) /\
  Sample.after 2 2 = true /\
  generate (R := Sample.runtime 2048 (Sample.after 2)) Sample.legacy_handle
    (Str "hello") (Sample.sampling false) (Some record_call) []
    = (Ok "he", ["h"; "e"]) /\
  (forall i, Sample.never i = false) /\
  generate (R := Sample.runtime 2048 Sample.never) Sample.legacy_handle
    (Str "hello") (Sample.sampling false) (Some record_call) []
    = (Ok "hello", ["h"; "e"; "l"; "l"; "o"]) /\
  Sample.after 0 0 = true /\
  generate (R := Sample.runtime 2048 (Sample.after 0)) Sample.legacy_handle
    (Str "hello") (Sample.sampling false) (Some record_call) []
    = (Ok "", []).
Proof.
  assert (Hlt : forall i, (i < 2)%nat -> Sample.after 2 i = false).
  { intros i Hi. unfold Sample.after. apply bool_decide_eq_false. lia. }
  split; [reflexivity |]. split; [reflexivity |]. split; [exact Hlt |].
  split; [reflexivity |]. split.
  { exact (proj2 (proj2 (proj2 (generate_returns_consumed_chunks
             (Sample.runtime 2048 (Sample.after 2)) (list string)
             Sample.legacy_handle (Str "hello") (Sample.sampling false)
             (Some record_call) [] Sample.legacy_model
             (Sample.args_for "hello" false) eq_refl))) 2%nat Hlt eq_refl). }
  split; [reflexivity |]. split.
  { exact (proj1 (proj2 (generate_returns_consumed_chunks
             (Sample.runtime 2048 Sample.never) (list string)
             Sample.legacy_handle (Str "hello") (Sample.sampling false)
             (Some record_call) [] Sample.legacy_model
             (Sample.args_for "hello" false) eq_refl)) (fun _ => eq_refl)). }
  split; [reflexivity |].
  exact (proj1 (proj2 (proj2 (generate_returns_consumed_chunks
           (Sample.runtime 2048 (Sample.after 0)) (list string)
           Sample.legacy_handle (Str "hello") (Sample.sampling false)
           (Some record_call) [] Sample.legacy_model
           (Sample.args_for "hello" false) eq_refl))) eq_refl).
Defined.

(** ** Prompt truncation *)

(** With a positive limit [N] the slice [prompt[-N:]] is the trailing [N]
    tokens, in order: the tokens from position [len - N] on, all of them
    when there are no more than [N]. *)
Lemma truncate_trailing (R : Runtime) (st : state) (tokens : list Z) :
  1 <= get_max_prompt_length st ->
  truncate tokens st =
    drop (length tokens - Z.to_nat (get_max_prompt_length st)) tokens /\
  Z.of_nat (length (truncate tokens st)) =
    Z.min (get_max_prompt_length st) (Z.of_nat (length tokens)).
Proof.
  intros HN. unfold truncate, slice_from.
  destruct (- get_max_prompt_length st <? 0) eqn:E; [| lia].
  assert (Hs : Z.to_nat (Z.max (- get_max_prompt_length st + Z.of_nat (length tokens)) 0)
               = (length tokens - Z.to_nat (get_max_prompt_length st))%nat) by lia.
  rewrite Hs. split; [reflexivity |]. rewrite length_drop. lia.
Qed.

(** C2 (the code at the failing input). When the prompt-length policy
    returns 0, the slice is [prompt[-0:]], that is [prompt[0:]]: every token
    is kept, none is dropped. *)
Theorem truncate_keeps_all_at_zero :
  forall (R : Runtime) (st : state) (tokens : list Z),
    get_max_prompt_length st = 0 ->
    truncate tokens st = tokens.
Proof.
  intros R st tokens HN. unfold truncate, slice_from. rewrite HN.
  change (- 0 <? 0) with false. cbv iota.
  replace (Z.to_nat (Z.min (- 0) (Z.of_nat (length tokens)))) with 0%nat by lia.
  reflexivity.
Qed.

Lemma truncate_keeps_all_at_zero_witness :
  get_max_prompt_length (Runtime := Sample.runtime 0 Sample.never)
    (Sample.sampling false) = 0 /\
  truncate (R := Sample.runtime 0 Sample.never) [104; 105; 33] (Sample.sampling false)
    = [104; 105; 33] /\
  completion_call (R := Sample.runtime 0 Sample.never) Sample.legacy_handle
    (Str "hi!") (Sample.sampling false)
    = Ok (Sample.legacy_model, Sample.args_for "hi!" false) /\
  completion_call (R := Sample.runtime 2 Sample.never) Sample.legacy_handle
    (Str "hi!") (Sample.sampling false)
    = Ok (Sample.legacy_model, Sample.args_for "i!" false).
Proof.
  split; [reflexivity |]. split.
  { exact (truncate_keeps_all_at_zero (Sample.runtime 0 Sample.never)
             (Sample.sampling false) [104; 105; 33] eq_refl). }
  split; reflexivity.
Defined.

(** ** The streaming wrapper *)

Section StreamingFacts.

Lemma callback_run_record ts : forall log,
  callback_run (Some record_call) ts log = log ++ ts.
Proof.
  induction ts as [| t ts IH]; intros log; cbn.
  - rewrite app_nil_r. reflexivity.
  - unfold callback_run in IH. rewrite IH. unfold record_call.
    rewrite <- app_assoc. reflexivity.
Qed.

Lemma concat_str_snoc l t : concat_str (l ++ [t]) = concat_str l +:+ t.
Proof.
  induction l as [| x l IH]; cbn.
  - apply append_empty_r.
  - fold (concat_str (l ++ [t])). fold (concat_str l).
    rewrite IH, append_assoc. reflexivity.
Qed.

Lemma prefix_append a t : String.prefix a (a +:+ t) = true.
Proof.
  induction a as [| c a IH]; [destruct t; reflexivity |].
  rewrite append_cons. cbn. destruct (ascii_dec c c); [assumption | congruence].
Qed.

Lemma length_append a t :
  String.length (a +:+ t) = (String.length a + String.length t)%nat.
Proof.
  induction a as [| c a IH]; [reflexivity |].
  rewrite append_cons. cbn. congruence.
Qed.

Lemma replies_length ts : forall reply, length (replies reply ts) = length ts.
Proof. induction ts as [| t ts IH]; intros reply; cbn; congruence. Qed.

Lemma replies_lookup ts : forall reply i item,
  replies reply ts !! i = Some item ->
  item = reply +:+ concat_str (take (S i) ts).
Proof.
  induction ts as [| t ts IH]; intros reply i item; [done |].
  destruct i as [| i]; cbn [replies lookup list_lookup].
  - intros [= <-]. cbn [take concat_str fold_right].
    rewrite append_empty_r. reflexivity.
  - intros Hi. rewrite (IH _ _ _ Hi).
    cbn [take concat_str fold_right]. apply append_assoc.
Qed.

End StreamingFacts.

(** The tokens that [Iteratorize] hands over are the texts of the chunks
    that [generate] consumed. *)
Lemma Iteratorize_generate (R : Runtime) self prompt st m args :
  completion_call self prompt st = Ok (m, args) ->
  exists k : nat,
    (k <= length (create_completion m args))%nat /\
    (forall i, (i < k)%nat -> stop_everything i = false) /\
    ((k < length (create_completion m args))%nat -> stop_everything k = true) /\
    Iteratorize (generate self prompt st) = texts (take k (create_completion m args)).
Proof.
  intros Hcall.
  destruct (stop_point (length (create_completion m args)) 0)
    as (k & Hk & Hbefore & Hat).
  exists k. repeat split; try assumption.
  unfold Iteratorize.
  rewrite (generate_take R _ self prompt st _ [] m args k Hcall Hbefore Hat).
  apply (callback_run_record _ []).
Qed.

(** C7. In every run of the streaming wrapper, whatever the number [n] of
    items pulled, the [i]-th item (from 0) is the concatenation of the first
    [i+1] tokens that the generation handed over, which are the texts of the
    chunks that [generate] consumed; so each item is the item before it
    extended by one token: the item before is a prefix of it and is no
    longer than it. *)
Theorem streaming_items_cumulative :
  forall (R : Runtime) (self : LlamaCppModel) (prompt : str_or_bytes) (st : state)
         (n : nat),
    (forall i item,
       pulled n self prompt st !! i = Some item ->
       item = concat_str (take (S i) (Iteratorize (generate self prompt st)))) /\
    (forall i a b,
       pulled n self prompt st !! i = Some a ->
       pulled n self prompt st !! S i = Some b ->
       (exists token,
          Iteratorize (generate self prompt st) !! S i = Some token /\
          b = a +:+ token) /\
       String.prefix a b = true /\
       (String.length a <= String.length b)%nat) /\
    (forall m args,
       completion_call self prompt st = Ok (m, args) ->
       exists k : nat,
         (k <= length (create_completion m args))%nat /\
         (forall i, (i < k)%nat -> stop_everything i = false) /\
         ((k < length (create_completion m args))%nat -> stop_everything k = true) /\
         Iteratorize (generate self prompt st)
           = texts (take k (create_completion m args)) /\
         pulled n self prompt st =
           take n (replies "" (texts (take k (create_completion m args))))).
Proof.
  intros R self prompt st n.
  assert (Hitem : forall i item,
            pulled n self prompt st !! i = Some item ->
            item = concat_str (take (S i) (Iteratorize (generate self prompt st))) /\
            (i < length (Iteratorize (generate self prompt st)))%nat).
  { unfold pulled, generate_with_streaming.
    intros i item [Hi _]%lookup_take_Some. split.
    - rewrite (replies_lookup _ _ _ _ Hi). apply append_empty_l.
    - apply lookup_lt_Some in Hi. rewrite replies_length in Hi. exact Hi. }
  split; [| split].
  - intros i item Hi. apply Hitem, Hi.
  - intros i a b Ha Hb.
    destruct (Hitem _ _ Ha) as [-> _]. destruct (Hitem _ _ Hb) as [-> Hlt].
    destruct (lookup_lt_is_Some_2 _ _ Hlt) as [token Htoken].
    rewrite (take_S_r _ (S i) token Htoken), concat_str_snoc.
    split; [eauto |]. split; [apply prefix_append |].
    rewrite length_append. lia.
  - intros m args Hcall.
    destruct (Iteratorize_generate R self prompt st m args Hcall)
      as (k & Hk & Hbefore & Hat & Eq).
    exists k. repeat split; try assumption.
    unfold pulled, generate_with_streaming. rewrite Eq. reflexivity.
Qed.

Lemma streaming_items_cumulative_witness :
  pulled (R := Sample.runtime 2048 (Sample.after 3)) 5 Sample.legacy_handle
    (Str "hello") (Sample.sampling false) = ["h"; "he"; "hel"] /\
  Iteratorize (generate (R := Sample.runtime 2048 (Sample.after 3))
                 Sample.legacy_handle (Str "hello") (Sample.sampling false))
    = ["h"; "e"; "l"] /\
  "hel" = concat_str (take 3 ["h"; "e"; "l"]) /\
  String.prefix "he" "hel" = true /\
  (String.length "he" <= String.length "hel")%nat /\
  completion_call (R := Sample.runtime 2048 (Sample.after 3)) Sample.legacy_handle
    (Str "hello") (Sample.sampling false)
    = Ok (Sample.legacy_model, Sample.args_for "hello" false) /\
  exists k : nat,
    Iteratorize (generate (R := Sample.runtime 2048 (Sample.after 3))
                   Sample.legacy_handle (Str "hello") (Sample.sampling false))
    = texts (take k (create_completion Sample.legacy_model
                       (Sample.args_for "hello" false))).
Proof.
  destruct (streaming_items_cumulative (Sample.runtime 2048 (Sample.after 3))
              Sample.legacy_handle (Str "hello") (Sample.sampling false) 5)
    as (Hitem & Hnext & Hchunks).
  split; [reflexivity |]. split; [reflexivity |].
  split; [exact (Hitem 2%nat "hel" eq_refl) |].
  destruct (Hnext 1%nat "he" "hel" eq_refl eq_refl) as (_ & Hprefix & Hlen).
  split; [exact Hprefix |]. split; [exact Hlen |].
  split; [reflexivity |].
  destruct (Hchunks Sample.legacy_model (Sample.args_for "hello" false) eq_refl)
    as (k & _ & _ & _ & Eq & _).
  exists k. exact Eq.
Defined.

(** ** The lifecycle of the handle *)

Section LifecycleFacts.

Lemma del_with_model self m (w : teardowns) :
  model self = Some m ->
  __del__ self w = (Ok tt, <[llama_id m := S (teardown_count w m)]> w).
Proof. unfold __del__, self_model. intros ->. reflexivity. Qed.

Lemma teardown_count_del self m (w : teardowns) :
  model self = Some m ->
  teardown_count (__del__ self w).2 m = S (teardown_count w m).
Proof.
  intros Hm. rewrite (del_with_model _ _ _ Hm). unfold teardown_count at 1.
  cbn [snd]. rewrite lookup_insert_eq. reflexivity.
Qed.

Lemma teardown_count_del_other self m m' (w : teardowns) :
  model self = Some m ->
  llama_id m' <> llama_id m ->
  teardown_count (__del__ self w).2 m' = teardown_count w m'.
Proof.
  intros Hm Hne. rewrite (del_with_model _ _ _ Hm). unfold teardown_count at 1 3.
  cbn [snd]. rewrite lookup_insert_ne by congruence. reflexivity.
Qed.

End LifecycleFacts.

(** C8 (counterexample). A handle released by hand and then released again
    at the end of its scope: the second release is not prevented, it
    succeeds as the first did, and the teardown of the backend object has
    run twice, not once. *)
Lemma second_release_not_prevented :
  __del__ Sample.legacy_handle ∅ = (Ok tt, {[ 1%positive := 1%nat ]}) /\
  __del__ Sample.legacy_handle {[ 1%positive := 1%nat ]}
    = (Ok tt, {[ 1%positive := 2%nat ]}) /\
  teardown_count (releases 2 Sample.legacy_handle ∅) Sample.legacy_model = 2%nat /\
  teardown_count (releases 2 Sample.legacy_handle ∅) Sample.legacy_model <> 1%nat.
Proof. repeat split; try reflexivity. discriminate. Qed.

(** C8 (amended). Every release of a handle that holds a backend object
    succeeds and calls the teardown of that object once more, whatever was
    released before: after [n] releases the teardown has run [n] more times,
    and no other backend object is touched.  [__init__] sets [initialized]
    to [False] and no release reads or changes the handle; on a handle
    without a backend object a release raises [AttributeError]. *)
Theorem release_forwards_every_call :
  forall (self : LlamaCppModel) (m : Llama) (w : teardowns) (n : nat),
    model self = Some m ->
    __del__ self w = (Ok tt, <[llama_id m := S (teardown_count w m)]> w) /\
    teardown_count (releases n self w) m = (teardown_count w m + n)%nat /\
    (forall m', llama_id m' <> llama_id m ->
       teardown_count (releases n self w) m' = teardown_count w m') /\
    initialized (set_model __init__ m) = false /\
    __del__ __init__ w = (Raise AttributeError, w).
Proof.
  intros self m w n Hm.
  split; [apply del_with_model, Hm |].
  split; [| split; [| split; reflexivity]].
  - revert w. induction n as [| n IH]; intros w; cbn [releases]; [lia |].
    rewrite IH, (teardown_count_del _ _ _ Hm). lia.
  - intros m' Hne. revert w.
    induction n as [| n IH]; intros w; cbn [releases]; [reflexivity |].
    rewrite IH. apply (teardown_count_del_other self m); assumption.
Qed.

Lemma release_forwards_every_call_witness :
  model Sample.legacy_handle = Some Sample.legacy_model /\
  teardown_count (releases 3 Sample.legacy_handle ∅) Sample.legacy_model
    = (teardown_count ∅ Sample.legacy_model + 3)%nat.
Proof.
  split; [reflexivity |].
  exact (proj1 (proj2 (release_forwards_every_call Sample.legacy_handle
                         Sample.legacy_model ∅ 3 eq_refl))).
Defined.

(** * Further properties *)

(** ** More on the cache capacity *)

Section CacheCapacityMore.

Lemma letter_facts c :
  is_ascii_letter c = true ->
  is_int_space c = false /\ digit_value c = None /\ is_underscore c = false /\
  (code c =? 43) = false /\ (code c =? 45) = false /\ numeral_char c = false.
Proof.
  unfold is_ascii_letter, is_int_space, digit_value, is_underscore, numeral_char.
  intros Hc.
  destruct ((48 <=? code c) && (code c <=? 57)) eqn:Ed; [lia |].
  repeat split; try reflexivity; lia.
Qed.

Lemma int_digits_only_ValueError s : forall prev acc e,
  int_digits s prev acc = Raise e -> e = ValueError.
Proof.
  induction s as [| c s IH]; intros prev acc e; cbn [int_digits].
  - destruct (is_underscore prev); congruence.
  - destruct (digit_value c); [apply IH |].
    destruct (is_underscore c), (is_underscore prev); try congruence. apply IH.
Qed.

Lemma int_only_ValueError s e : int s = Raise e -> e = ValueError.
Proof.
  unfold int. destruct (int_sign (skip_space s)) as [sign body].
  destruct body as [| c body]; [congruence |].
  destruct (digit_value c); [| congruence].
  destruct (int_digits _ _ _) as [[n rest] |] eqn:E; cbn.
  - destruct (skip_space rest); congruence.
  - intros [= <-]. eapply int_digits_only_ValueError, E.
Qed.

Lemma re_sub_letters_all t :
  all_chars is_ascii_letter t = true -> re_sub_letters t = "".
Proof.
  induction t as [| c t IH]; cbn [all_chars re_sub_letters]; [done |].
  intros [-> Ht]%andb_true_iff. auto.
Qed.

Lemma int_letter_first c t :
  is_ascii_letter c = true -> int (String c t) = Raise ValueError.
Proof.
  intros (Hs & Hd & _ & Hp & Hm & _)%letter_facts.
  unfold int. cbn [skip_space]. rewrite Hs. cbn [int_sign]. rewrite Hp, Hm, Hd.
  reflexivity.
Qed.

Lemma int_digits_digit c k s prev acc :
  digit_value c = Some k ->
  int_digits (String c s) prev acc = int_digits s c (10 * acc + k).
Proof. intros Hc. cbn [int_digits]. rewrite Hc. reflexivity. Qed.

Lemma int_digits_stop c t prev acc :
  is_ascii_letter c = true ->
  is_underscore prev = false ->
  int_digits (String c t) prev acc = Ok (acc, String c t).
Proof.
  intros (_ & Hd & Hu & _)%letter_facts Hprev.
  cbn [int_digits]. rewrite Hd, Hu, Hprev. reflexivity.
Qed.

Lemma int_digits_then_letter d : forall prev acc c t,
  is_ascii_letter c = true ->
  d <> Nil ->
  int_digits (NilEmpty.string_of_uint d +:+ String c t) prev acc =
    Ok (uint_val d acc, String c t).
Proof.
  induction d; intros prev acc c t Hc Hd; [congruence | ..];
    (cbn [NilEmpty.string_of_uint uint_val]; rewrite append_cons;
     erewrite int_digits_digit by reflexivity;
     destruct d;
     [ cbn [NilEmpty.string_of_uint uint_val]; rewrite append_empty_l;
       apply int_digits_stop; [assumption | reflexivity]
     | apply IHd; [assumption | discriminate] .. ]).
Qed.

Lemma int_numeral_then_letter d c t :
  is_ascii_letter c = true ->
  d <> Nil ->
  int (NilEmpty.string_of_uint d +:+ String c t) = Raise ValueError /\
  int (String "-" (NilEmpty.string_of_uint d) +:+ String c t) = Raise ValueError.
Proof.
  intros Hc Hd.
  pose proof (int_digits_then_letter d "000"%char 0 c t Hc Hd) as E.
  assert (exists c0 s0, NilEmpty.string_of_uint d +:+ String c t = String c0 s0 /\
                        (48 <=? code c0) && (code c0 <=? 57) = true)
    as (c0 & s0 & Es & Hc0)
    by (destruct d; [congruence | ..]; eexists _, _; split; reflexivity).
  rewrite append_cons.
  destruct (int_digit_start _ c0 s0 Es Hc0) as [-> ->].
  rewrite E. cbn [mbind result_bind bind skip_space].
  destruct (letter_facts c Hc) as (-> & _). split; reflexivity.
Qed.

(** The numeral of an integer is a non-empty run of digits, with a minus
    sign in front for a negative one. *)
Lemma str_of_int_form n :
  exists d, d <> Nil /\
    (str_of_int n = NilEmpty.string_of_uint d \/
     str_of_int n = String "-" (NilEmpty.string_of_uint d)).
Proof.
  unfold str_of_int.
  destruct (Z.to_int n) as [d | d]; cbn [NilZero.string_of_int].
  - destruct d; [exists (D0 Nil); split; [discriminate | left; reflexivity] | ..];
      (eexists; split; [| left; reflexivity]; discriminate).
  - destruct d; [exists (D0 Nil); split; [discriminate | right; reflexivity] | ..];
      (eexists; split; [| right; reflexivity]; discriminate).
Qed.

End CacheCapacityMore.

(** X1. The only exception that the parsing of the cache capacity raises
    is [ValueError]. *)
Theorem cache_capacity_raises_only_ValueError :
  forall (arg : option string) (e : exn),
    cache_capacity arg = Raise e -> e = ValueError.
Proof.
  intros [s |] e; [| discriminate]. unfold cache_capacity.
  destruct (contains "GiB" s); [| destruct (contains "MiB" s)];
    try apply int_only_ValueError;
    (destruct (int (re_sub_letters s)) eqn:E; cbn; [discriminate |];
     intros [= <-]; eapply int_only_ValueError, E).
Qed.

Lemma cache_capacity_raises_only_ValueError_witness :
  cache_capacity (Some "12 GiB 7") = Raise ValueError /\
  ValueError = ValueError.
Proof.
  split; [reflexivity |].
  exact (cache_capacity_raises_only_ValueError (Some "12 GiB 7") ValueError eq_refl).
Defined.

(** X2. A unit may come with other letters: every ASCII letter is dropped
    before the number is read.  For every integer [n] and every run of
    letters [t], [str(n)+t] gives [n * 1000000000] when [t] contains "GiB",
    also when it contains "MiB" as well, and [n * 1000000] when it contains
    "MiB" and not "GiB". *)
Theorem cache_capacity_unit_among_letters :
  forall (n : Z) (t : string),
    all_chars is_ascii_letter t = true ->
    (contains "GiB" t = true ->
     cache_capacity (Some (str_of_int n +:+ t)) = Ok (n * 1000000000)) /\
    (contains "GiB" t = false -> contains "MiB" t = true ->
     cache_capacity (Some (str_of_int n +:+ t)) = Ok (n * 1000000)).
Proof.
  intros n t Ht. pose proof (str_of_int_numeral n) as Hn.
  assert (Hint : int (re_sub_letters (str_of_int n +:+ t)) = Ok n).
  { rewrite re_sub_letters_app, (re_sub_letters_all t Ht), append_empty_r by assumption.
    apply int_str_of_int. }
  unfold cache_capacity.
  rewrite (contains_after_numeral "G" "iB" _ t eq_refl Hn).
  rewrite (contains_after_numeral "M" "iB" _ t eq_refl Hn).
  split.
  - intros ->. rewrite Hint. cbn. f_equal. lia.
  - intros -> ->. rewrite Hint. cbn. f_equal. lia.
Qed.

Lemma cache_capacity_unit_among_letters_witness :
  all_chars is_ascii_letter "MiBorGiB" = true /\
  contains "GiB" "MiBorGiB" = true /\
  cache_capacity (Some (str_of_int 3 +:+ "MiBorGiB")) = Ok (3 * 1000000000) /\
  all_chars is_ascii_letter "MiBytes" = true /\
  contains "GiB" "MiBytes" = false /\ contains "MiB" "MiBytes" = true /\
  cache_capacity (Some (str_of_int 3 +:+ "MiBytes")) = Ok (3 * 1000000).
Proof.
  split; [reflexivity |]. split; [reflexivity |].
  split; [exact (proj1 (cache_capacity_unit_among_letters 3 "MiBorGiB" eq_refl) eq_refl) |].
  split; [reflexivity |]. split; [reflexivity |]. split; [reflexivity |].
  exact (proj2 (cache_capacity_unit_among_letters 3 "MiBytes" eq_refl) eq_refl eq_refl).
Defined.

(** X3. Only the exact spellings "GiB" and "MiB" are units: an integer
    followed by a non-empty run of letters that contains neither (as in
    "2GB", "2gib" or "2KiB") raises [ValueError]. *)
Theorem cache_capacity_unknown_unit_raises :
  forall (n : Z) (t : string),
    t <> "" ->
    all_chars is_ascii_letter t = true ->
    contains "GiB" t = false ->
    contains "MiB" t = false ->
    cache_capacity (Some (str_of_int n +:+ t)) = Raise ValueError.
Proof.
  intros n t Hne Ht HG HM. pose proof (str_of_int_numeral n) as Hn.
  unfold cache_capacity.
  rewrite (contains_after_numeral "G" "iB" _ t eq_refl Hn), HG.
  rewrite (contains_after_numeral "M" "iB" _ t eq_refl Hn), HM.
  destruct t as [| c t]; [congruence |].
  cbn [all_chars] in Ht. apply andb_true_iff in Ht as [Hc _].
  destruct (str_of_int_form n) as (d & Hd & [-> | ->]);
    apply (int_numeral_then_letter d c t Hc Hd).
Qed.

Lemma cache_capacity_unknown_unit_raises_witness :
  "gib" <> "" /\ all_chars is_ascii_letter "gib" = true /\
  contains "GiB" "gib" = false /\ contains "MiB" "gib" = false /\
  cache_capacity (Some (str_of_int 2 +:+ "gib")) = Raise ValueError.
Proof.
  split; [discriminate |]. split; [reflexivity |].
  split; [reflexivity |]. split; [reflexivity |].
  exact (cache_capacity_unknown_unit_raises 2 "gib" ltac:(discriminate)
           eq_refl eq_refl eq_refl).
Defined.

(** X4. A capacity without a digit raises [ValueError]: every string made
    of letters only, a bare "GiB" or "MiB" and the empty string among
    them. *)
Theorem cache_capacity_without_digits_raises :
  forall t : string,
    all_chars is_ascii_letter t = true ->
    cache_capacity (Some t) = Raise ValueError.
Proof.
  intros t Ht. unfold cache_capacity. rewrite (re_sub_letters_all t Ht).
  destruct (contains "GiB" t); [reflexivity |].
  destruct (contains "MiB" t); [reflexivity |].
  destruct t as [| c t]; [reflexivity |].
  cbn [all_chars] in Ht. apply andb_true_iff in Ht as [Hc _].
  apply int_letter_first, Hc.
Qed.

Lemma cache_capacity_without_digits_raises_witness :
  all_chars is_ascii_letter "GiB" = true /\
  cache_capacity (Some "GiB") = Raise ValueError.
Proof.
  split; [reflexivity |].
  exact (cache_capacity_without_digits_raises "GiB" eq_refl).
Defined.

(** ** More on the prompt *)

(** X5. With a limit [N] of at least 1, the tokens kept by [prompt[-N:]]
    are the trailing [min(N, len)] tokens of the prompt, in order: the
    prompt is some dropped tokens followed by the kept ones, and a prompt of
    no more than [N] tokens is kept whole. *)
Theorem truncate_positive_limit :
  forall (R : Runtime) (st : state) (tokens : list Z),
    1 <= get_max_prompt_length st ->
    Z.of_nat (length (truncate tokens st)) =
      Z.min (get_max_prompt_length st) (Z.of_nat (length tokens)) /\
    (exists dropped, tokens = dropped ++ truncate tokens st) /\
    (Z.of_nat (length tokens) <= get_max_prompt_length st ->
     truncate tokens st = tokens).
Proof.
  intros R st tokens HN.
  destruct (truncate_trailing R st tokens HN) as [Eq Hlen].
  split; [exact Hlen |]. split.
  - exists (take (length tokens - Z.to_nat (get_max_prompt_length st)) tokens).
    rewrite Eq. symmetry. apply take_drop.
  - intros Hfit. rewrite Eq.
    replace (length tokens - Z.to_nat (get_max_prompt_length st))%nat with 0%nat by lia.
    reflexivity.
Qed.

Lemma truncate_positive_limit_witness :
  1 <= get_max_prompt_length (Runtime := Sample.runtime 2 Sample.never)
         (Sample.sampling false) /\
  truncate (R := Sample.runtime 2 Sample.never) [104; 105; 33] (Sample.sampling false)
    = [105; 33] /\
  Z.of_nat (length (truncate (R := Sample.runtime 2 Sample.never) [104; 105; 33]
                      (Sample.sampling false))) = Z.min 2 3.
Proof.
  split; [cbn; lia |]. split; [reflexivity |].
  exact (proj1 (truncate_positive_limit (Sample.runtime 2 Sample.never)
                  (Sample.sampling false) [104; 105; 33] ltac:(cbn; lia))).
Defined.

(** X6. When the prompt-length policy returns a negative [N], the slice
    [prompt[-N:]] starts at the positive index [-N]: the first [|N|] tokens
    are dropped and all the others are kept, however many they are. *)
Theorem truncate_negative_limit :
  forall (R : Runtime) (st : state) (tokens : list Z),
    get_max_prompt_length st < 0 ->
    truncate tokens st = drop (Z.to_nat (- get_max_prompt_length st)) tokens /\
    Z.of_nat (length (truncate tokens st)) =
      Z.max 0 (Z.of_nat (length tokens) + get_max_prompt_length st).
Proof.
  intros R st tokens HN. unfold truncate, slice_from.
  destruct (- get_max_prompt_length st <? 0) eqn:E; [lia |].
  destruct (Z.min_spec (- get_max_prompt_length st) (Z.of_nat (length tokens)))
    as [[Hlt ->] | [Hge ->]].
  - split; [reflexivity |]. rewrite length_drop. lia.
  - rewrite Nat2Z.id. split.
    + rewrite drop_all. symmetry. apply drop_ge. lia.
    + rewrite length_drop. lia.
Qed.

Lemma truncate_negative_limit_witness :
  get_max_prompt_length (Runtime := Sample.runtime (-1) Sample.never)
    (Sample.sampling false) < 0 /\
  truncate (R := Sample.runtime (-1) Sample.never) [104; 105; 33] (Sample.sampling false)
    = [105; 33] /\
  completion_call (R := Sample.runtime (-1) Sample.never) Sample.legacy_handle
    (Str "hi!") (Sample.sampling false)
    = Ok (Sample.legacy_model, Sample.args_for "i!" false).
Proof.
  split; [cbn; lia |]. split; [| reflexivity].
  exact (proj1 (truncate_negative_limit (Sample.runtime (-1) Sample.never)
                  (Sample.sampling false) [104; 105; 33] ltac:(cbn; lia))).
Defined.

(** X7. On a handle whose backend object was never loaded, [generate]
    raises before the backend or the callback is called: the error of
    [prompt.decode()] for a bytes prompt that does not decode, the error of
    [string.encode()] for a text that does not encode, and [AttributeError]
    in every other case. *)
Theorem generate_without_model_raises :
  forall (R : Runtime) (W : Type) (self : LlamaCppModel) (prompt : str_or_bytes)
         (st : state) (callback : option (string -> W -> W)) (w : W),
    model self = None ->
    (forall e,
       match prompt with Str s => Ok s | Bytes b => bytes_decode b end = Raise e ->
       generate self prompt st callback w = (Raise e, w)) /\
    (forall s e,
       match prompt with Str s => Ok s | Bytes b => bytes_decode b end = Ok s ->
       str_encode s = Raise e ->
       generate self prompt st callback w = (Raise e, w)) /\
    (forall s encoded,
       match prompt with Str s => Ok s | Bytes b => bytes_decode b end = Ok s ->
       str_encode s = Ok encoded ->
       generate self prompt st callback w = (Raise AttributeError, w)).
Proof.
  intros R W self prompt st callback w Hm.
  assert (Hcall : completion_call self prompt st =
            (p ← match prompt with Str s => Ok s | Bytes b => bytes_decode b end;
             encoded ← str_encode p;
             Raise AttributeError)).
  { unfold completion_call.
    destruct (llama_cpp_lib_default_modern module_imports shared_args_cpu is_gguf)
      as (lib & -> & _).
    cbn [mbind result_bind bind].
    destruct (match prompt with Str s => Ok s | Bytes b => bytes_decode b end)
      as [p |]; [| reflexivity].
    cbn [mbind result_bind bind]. unfold encode, self_model. rewrite Hm.
    destruct (str_encode p); reflexivity. }
  split; [| split].
  - intros e He. apply generate_raises. rewrite Hcall, He. reflexivity.
  - intros s e Hs He. apply generate_raises. rewrite Hcall, Hs. cbn.
    rewrite He. reflexivity.
  - intros s encoded Hs He. apply generate_raises. rewrite Hcall, Hs. cbn.
    rewrite He. reflexivity.
Qed.

Lemma generate_without_model_raises_witness :
  model __init__ = None /\
  str_encode (Runtime := Sample.runtime 2048 Sample.never) "hi" = Ok (String.list_byte_of_string "hi") /\
  generate (R := Sample.runtime 2048 Sample.never) __init__ (Str "hi")
    (Sample.sampling false) (Some record_call) [] = (Raise AttributeError, []) /\
  bytes_decode (Runtime := Sample.runtime 2048 Sample.never) [Byte.xff]
    = Raise UnicodeDecodeError /\
  generate (R := Sample.runtime 2048 Sample.never) __init__ (Bytes [Byte.xff])
    (Sample.sampling false) (Some record_call) [] = (Raise UnicodeDecodeError, []).
Proof.
  split; [reflexivity |]. split; [reflexivity |]. split.
  { exact (proj2 (proj2 (generate_without_model_raises
             (Sample.runtime 2048 Sample.never) (list string)
             __init__ (Str "hi") (Sample.sampling false) (Some record_call) []
             eq_refl)) "hi" (String.list_byte_of_string "hi") eq_refl eq_refl). }
  split; [reflexivity |].
  exact (proj1 (generate_without_model_raises
           (Sample.runtime 2048 Sample.never) (list string)
           __init__ (Bytes [Byte.xff]) (Sample.sampling false) (Some record_call) []
           eq_refl) UnicodeDecodeError eq_refl).
Defined.

Lemma concat_str_app l1 l2 :
  concat_str (l1 ++ l2) = concat_str l1 +:+ concat_str l2.
Proof.
  induction l1 as [| x l1 IH]; [reflexivity |].
  cbn [app]. change (concat_str (x :: ?l)) with (x +:+ concat_str l).
  rewrite IH, append_assoc. reflexivity.
Qed.

(** X8. Cancellation only cuts the output short: for every behaviour of
    the cancellation flag, a request that reaches the backend returns a
    prefix of the concatenation of all the chunks of the stream, which is
    what it returns when the flag is never set. *)
Theorem generate_returns_prefix_of_stream :
  forall (R : Runtime) (W : Type) (self : LlamaCppModel) (prompt : str_or_bytes)
         (st : state) (callback : option (string -> W -> W)) (w : W)
         (m : Llama) (args : completion_args),
    completion_call self prompt st = Ok (m, args) ->
    exists output rest,
      (generate self prompt st callback w).1 = Ok output /\
      concat_str (texts (create_completion m args)) = output +:+ rest /\
      String.prefix output (concat_str (texts (create_completion m args))) = true.
Proof.
  intros R W self prompt st callback w m args Hcall.
  destruct (stop_point (length (create_completion m args)) 0)
    as (k & _ & Hbefore & Hat).
  rewrite (generate_take R W self prompt st callback w m args k Hcall Hbefore Hat).
  exists (concat_str (texts (take k (create_completion m args)))),
         (concat_str (texts (drop k (create_completion m args)))).
  split; [reflexivity |].
  assert (Eq : concat_str (texts (create_completion m args)) =
               concat_str (texts (take k (create_completion m args))) +:+
               concat_str (texts (drop k (create_completion m args)))).
  { rewrite <- (take_drop k (create_completion m args)) at 1.
    unfold texts. rewrite map_app. apply concat_str_app. }
  split; [exact Eq |]. rewrite Eq. apply prefix_append.
Qed.

Lemma generate_returns_prefix_of_stream_witness :
  completion_call (R := Sample.runtime 2048 (Sample.after 2)) Sample.legacy_handle
    (Str "hello") (Sample.sampling false)
    = Ok (Sample.legacy_model, Sample.args_for "hello" false) /\
  (generate (R := Sample.runtime 2048 (Sample.after 2)) Sample.legacy_handle
     (Str "hello") (Sample.sampling false) (Some record_call) []).1 = Ok "he" /\
  concat_str (texts (create_completion Sample.legacy_model
                       (Sample.args_for "hello" false))) = "hello" /\
  exists output rest,
    (generate (R := Sample.runtime 2048 (Sample.after 2)) Sample.legacy_handle
       (Str "hello") (Sample.sampling false) (Some record_call) []).1 = Ok output /\
    concat_str (texts (create_completion Sample.legacy_model
                         (Sample.args_for "hello" false))) = output +:+ rest.
Proof.
  split; [reflexivity |]. split; [reflexivity |]. split; [reflexivity |].
  destruct (generate_returns_prefix_of_stream
              (Sample.runtime 2048 (Sample.after 2)) (list string)
              Sample.legacy_handle (Str "hello") (Sample.sampling false)
              (Some record_call) [] Sample.legacy_model
              (Sample.args_for "hello" false) eq_refl)
    as (output & rest & Hout & Hsplit & _).
  exists output, rest. split; assumption.
Defined.

(** X9. A text prompt within the limit reaches the backend unchanged,
    provided the tokenizer and the codec round-trip on it: if the model
    detokenizes the tokens of the encoded prompt back to the same bytes,
    those bytes decode to the prompt, and there are no more tokens than a
    limit of at least 1, then the [prompt] argument of [create_completion]
    is the prompt given. *)
Theorem prompt_within_limit_unchanged :
  forall (R : Runtime) (self : LlamaCppModel) (m : Llama) (s : string)
         (encoded : list Byte.byte) (st : state),
    model self = Some m ->
    str_encode s = Ok encoded ->
    detokenize m (tokenize m encoded) = encoded ->
    bytes_decode encoded = Ok s ->
    1 <= get_max_prompt_length st ->
    Z.of_nat (length (tokenize m encoded)) <= get_max_prompt_length st ->
    exists args,
      completion_call self (Str s) st = Ok (m, args) /\
      prompt args = s.
Proof.
  intros R self m s encoded st Hm Henc Htok Hdec HN Hfit.
  unfold completion_call.
  destruct (llama_cpp_lib_default_modern module_imports shared_args_cpu is_gguf)
    as (lib & -> & _).
  cbn [mbind result_bind bind]. unfold encode, decode, self_model.
  rewrite Henc, Hm.
  cbn [mbind result_bind bind].
  destruct (truncate_trailing R st (tokenize m encoded) HN) as [-> _].
  replace (length (tokenize m encoded)
           - Z.to_nat (get_max_prompt_length st))%nat with 0%nat by lia.
  rewrite drop_0, Htok, Hdec. cbn [mbind result_bind bind].
  eexists. split; reflexivity.
Qed.

Lemma prompt_within_limit_unchanged_witness :
  model Sample.legacy_handle = Some Sample.legacy_model /\
  str_encode (Runtime := Sample.runtime 3 Sample.never) "hi!" = Ok (String.list_byte_of_string "hi!") /\
  exists args,
    completion_call (R := Sample.runtime 3 Sample.never) Sample.legacy_handle
      (Str "hi!") (Sample.sampling false) = Ok (Sample.legacy_model, args) /\
    prompt args = "hi!".
Proof.
  split; [reflexivity |]. split; [reflexivity |].
  exact (prompt_within_limit_unchanged (Sample.runtime 3 Sample.never)
           Sample.legacy_handle Sample.legacy_model "hi!" (String.list_byte_of_string "hi!")
           (Sample.sampling false)
           eq_refl eq_refl eq_refl eq_refl ltac:(cbn; lia) ltac:(cbn; lia)).
Defined.

(** ** More on the streaming wrapper *)

Lemma replies_last ts : forall reply,
  last (replies reply ts) =
    match ts with
    | [] => None
    | _ :: _ => Some (reply +:+ concat_str ts)
    end.
Proof.
  induction ts as [| t ts IH]; intros reply; [reflexivity |].
  cbn [replies]. destruct ts as [| t' ts].
  - cbn. rewrite append_empty_r. reflexivity.
  - change (last (?x :: replies ?r (t' :: ts))) with (last (replies r (t' :: ts))).
    rewrite IH. change (concat_str (t :: ?l)) with (t +:+ concat_str l).
    rewrite append_assoc. reflexivity.
Qed.

(** X10. The loop of [generate_with_streaming] yields exactly one item for
    each token it receives, none when it receives none (not even the empty
    string), and the last item is the concatenation of all the tokens. *)
Theorem replies_one_per_token :
  forall (generator : list string),
    length (replies "" generator) = length generator /\
    (generator = [] -> replies "" generator = []) /\
    (generator <> [] -> last (replies "" generator) = Some (concat_str generator)).
Proof.
  intros ts. split; [apply replies_length |]. split.
  - intros ->. reflexivity.
  - intros Hne. rewrite replies_last. destruct ts; [congruence | reflexivity].
Qed.

Lemma replies_one_per_token_witness :
  ["he"; ""; "llo"] <> [] /\
  replies "" ["he"; ""; "llo"] = ["he"; "he"; "hello"] /\
  last (replies "" ["he"; ""; "llo"]) = Some (concat_str ["he"; ""; "llo"]).
Proof.
  split; [discriminate |]. split; [reflexivity |].
  exact (proj2 (proj2 (replies_one_per_token ["he"; ""; "llo"])) ltac:(discriminate)).
Defined.

(** X11. For a request that reaches the backend and meets the same reads
    of the cancellation flag, the last item of the stream is the text that
    [generate] returns; when the stream has no item, [generate] returns the
    empty string. *)
Theorem streaming_last_item_is_result :
  forall (R : Runtime) (self : LlamaCppModel) (prompt : str_or_bytes) (st : state)
         (m : Llama) (args : completion_args),
    completion_call self prompt st = Ok (m, args) ->
    exists output,
      (generate (W := unit) self prompt st None tt).1 = Ok output /\
      (last (generate_with_streaming self prompt st) = Some output \/
       generate_with_streaming self prompt st = [] /\ output = "").
Proof.
  intros R self prompt st m args Hcall.
  destruct (stop_point (length (create_completion m args)) 0)
    as (k & _ & Hbefore & Hat).
  rewrite (generate_take R unit self prompt st None tt m args k Hcall Hbefore Hat).
  eexists. split; [reflexivity |].
  unfold generate_with_streaming, Iteratorize.
  rewrite (generate_take R _ self prompt st _ [] m args k Hcall Hbefore Hat).
  cbn [snd]. rewrite (callback_run_record _ []). rewrite app_nil_l.
  rewrite replies_last.
  destruct (texts (take k (create_completion m args))) as [| t ts].
  - right. split; reflexivity.
  - left. rewrite append_empty_l. reflexivity.
Qed.

Lemma streaming_last_item_is_result_witness :
  completion_call (R := Sample.runtime 2048 (Sample.after 3)) Sample.legacy_handle
    (Str "hello") (Sample.sampling false)
    = Ok (Sample.legacy_model, Sample.args_for "hello" false) /\
  (generate (W := unit) (R := Sample.runtime 2048 (Sample.after 3))
     Sample.legacy_handle (Str "hello") (Sample.sampling false) None tt).1 = Ok "hel" /\
  last (generate_with_streaming (R := Sample.runtime 2048 (Sample.after 3))
          Sample.legacy_handle (Str "hello") (Sample.sampling false)) = Some "hel" /\
  exists output,
    (generate (W := unit) (R := Sample.runtime 2048 (Sample.after 3))
       Sample.legacy_handle (Str "hello") (Sample.sampling false) None tt).1
      = Ok output.
Proof.
  split; [reflexivity |]. split; [reflexivity |]. split; [reflexivity |].
  destruct (streaming_last_item_is_result (Sample.runtime 2048 (Sample.after 3))
              Sample.legacy_handle (Str "hello") (Sample.sampling false)
              Sample.legacy_model (Sample.args_for "hello" false) eq_refl)
    as (output & Hout & _).
  exists output. exact Hout.
Defined.

(** ** More on the logits processor *)

(** X12. The processor is idempotent: run again on the heap it left, with
    any token ids, it gives the same result and leaves the heap as it is. *)
Theorem ban_eos_idempotent :
  forall (eos_token : Z) (input_ids input_ids' : list Z) (logits : loc) (h : heap),
    ban_eos_logits_processor eos_token input_ids' logits
      (ban_eos_logits_processor eos_token input_ids logits h).2
    = ban_eos_logits_processor eos_token input_ids logits h.
Proof.
  intros eos ids ids' l h.
  destruct (h !! l) as [v |] eqn:Hv.
  - destruct (ban_eos_outcome eos ids l h v Hv) as [(j & Ej & E) | (e & Ee & E)];
      rewrite E; cbn [snd].
    + unfold ban_eos_logits_processor. rewrite lookup_insert_eq.
      assert (Ej' : index (<[j := neg_infinity]> v) eos = Ok j).
      { unfold index in *. rewrite length_insert. exact Ej. }
      rewrite (setitem_ok _ _ _ _ Ej'). rewrite list_insert_insert_eq.
      rewrite insert_insert_eq. reflexivity.
    + rewrite <- E. unfold ban_eos_logits_processor. reflexivity.
  - unfold ban_eos_logits_processor. rewrite Hv. cbn [snd]. rewrite Hv. reflexivity.
Qed.

(** X13. A negative token id counts from the end, as a Python index does:
    for [1 <= k <= len(logits)] the id [-k] is accepted and the entry at
    position [len(logits) - k] is the one set to negative infinity. *)
Theorem ban_eos_negative_id :
  forall (k : Z) (input_ids : list Z) (logits : loc) (h : heap) (v : list float),
    h !! logits = Some v ->
    1 <= k <= Z.of_nat (length v) ->
    ban_eos_logits_processor (- k) input_ids logits h =
      (Ok logits,
       <[logits := <[Z.to_nat (Z.of_nat (length v) - k) := neg_infinity]> v]> h).
Proof.
  intros k ids l h v Hv Hk.
  destruct (ban_eos_outcome (- k) ids l h v Hv) as [(j & Ej & E) | (e & Ee & _)].
  - rewrite E. unfold index in Ej.
    destruct (- k <? 0) eqn:E1; [| lia].
    destruct (_ && _) in Ej; [| discriminate]. injection Ej as <-.
    do 3 f_equal. lia.
  - unfold index in Ee. destruct (- k <? 0) eqn:E1; [| lia].
    destruct (_ && _) eqn:E2 in Ee; [discriminate | lia].
Qed.

Lemma ban_eos_negative_id_witness :
  Sample.logits_heap !! 1%positive = Some [0.5; 1; 2]%float /\
  1 <= 1 <= Z.of_nat (length [0.5; 1; 2]%float) /\
  ban_eos_logits_processor (- 1) [] 1%positive Sample.logits_heap =
    (Ok 1%positive, Sample.banned_heap).
Proof.
  split; [reflexivity |]. split; [cbn; lia |].
  exact (ban_eos_negative_id 1 [] 1%positive Sample.logits_heap [0.5; 1; 2]%float
           eq_refl ltac:(cbn; lia)).
Defined.

(** X14. A token id outside the vector, [len(logits)] or more, or less
    than [-len(logits)], raises [IndexError] and changes nothing in the
    heap. *)
Theorem ban_eos_out_of_range :
  forall (eos_token : Z) (input_ids : list Z) (logits : loc) (h : heap)
         (v : list float),
    h !! logits = Some v ->
    Z.of_nat (length v) <= eos_token \/ eos_token < - Z.of_nat (length v) ->
    ban_eos_logits_processor eos_token input_ids logits h = (Raise IndexError, h).
Proof.
  intros eos ids l h v Hv Hout.
  destruct (ban_eos_outcome eos ids l h v Hv) as [(j & Ej & _) | (e & Ee & E)].
  - unfold index in Ej. destruct (eos <? 0) eqn:E1;
      destruct (_ && _) eqn:E2 in Ej; try discriminate; lia.
  - rewrite E. unfold index in Ee. destruct (eos <? 0);
      destruct (_ && _) in Ee; congruence.
Qed.

Lemma ban_eos_out_of_range_witness :
  Sample.logits_heap !! 1%positive = Some [0.5; 1; 2]%float /\
  Z.of_nat (length [0.5; 1; 2]%float) <= 3 /\
  ban_eos_logits_processor 3 [] 1%positive Sample.logits_heap
    = (Raise IndexError, Sample.logits_heap).
Proof.
  assert (Hout : Z.of_nat (length [0.5; 1; 2]%float) <= 3) by (cbn; lia).
  split; [reflexivity |]. split; [exact Hout |].
  exact (ban_eos_out_of_range 3 [] 1%positive Sample.logits_heap [0.5; 1; 2]%float
           eq_refl (or_introl Hout)).
Defined.

(** ** More on the backend resolution *)

(** X15. Whatever the resolver returns is a module whose import succeeded;
    it is an accelerated module only when CUDA is available, the build is not
    a ROCm one and [--cpu] is not set; and for a file that the detector takes
    for GGUF it is a module of the modern family. *)
Theorem resolver_returns_loaded_module :
  forall (e : imports) (args_cpu : bool) (is_gguf : string -> bool)
         (model_file : option string) (m : module),
    llama_cpp_lib (import_block e) args_cpu is_gguf model_file = Some m ->
    module_loaded e (variant_of m) = true /\
    (m = llama_cpp_cuda \/ m = llama_cpp_ggml_cuda ->
     cuda_is_available e = true /\ version_hip e = false /\ args_cpu = false) /\
    (forall f, model_file = Some f -> is_gguf f = true -> family_of m = Modern).
Proof.
  intros [ggml cuda hip icuda iggml_cuda] cpu g file m.
  unfold llama_cpp_lib, import_block. cbn.
  intros Hm. split; [| split].
  - destruct (match file with Some f => g f | None => true end);
      destruct ggml, cuda, hip, icuda, iggml_cuda, cpu;
      cbn in Hm; injection Hm as <-; reflexivity.
  - intros Hacc.
    destruct (match file with Some f => g f | None => true end);
      destruct ggml, cuda, hip, icuda, iggml_cuda, cpu;
      cbn in Hm; injection Hm as <-; destruct Hacc; try discriminate; auto.
  - intros f -> Hf. rewrite Hf in Hm.
    destruct cuda, hip, icuda, cpu; cbn in Hm; injection Hm as <-; reflexivity.
Qed.

Lemma resolver_returns_loaded_module_witness :
  llama_cpp_lib (import_block Sample.only_legacy_cuda) false Sample.gguf_by_name
    (Some "model.bin") = Some llama_cpp_ggml /\
  module_loaded Sample.only_legacy_cuda (variant_of llama_cpp_ggml) = true.
Proof.
  split; [reflexivity |].
  exact (proj1 (resolver_returns_loaded_module Sample.only_legacy_cuda false
                  Sample.gguf_by_name (Some "model.bin") llama_cpp_ggml eq_refl)).
Defined.

(** ** Loading a model *)

Section LoaderFacts.
Context {R : Runtime} {L : LoadEnv}.

Lemma lstrip_spaces s : all_chars is_str_space s = true -> lstrip s = "".
Proof.
  induction s as [| c s IH]; cbn [all_chars lstrip]; [done |].
  intros [-> Hs]%andb_true_iff. auto.
Qed.

Lemma split_length sep s : length (split sep s) = S (count_char sep s).
Proof.
  induction s as [| c s IH]; [reflexivity |].
  cbn [split count_char]. destruct (Ascii.eqb c sep).
  - cbn [length]. rewrite IH. reflexivity.
  - destruct (split sep s) as [| field fields]; [discriminate |].
    cbn [length] in *. lia.
Qed.

Lemma comprehension_Loaded {A B} (f : A -> load_result B) l : forall ys,
  comprehension f l = Loaded ys <-> Forall2 (fun x y => f x = Loaded y) l ys.
Proof.
  induction l as [| x l IH]; intros ys; cbn [comprehension].
  - split; [intros [= <-]; constructor | intros ->%Forall2_nil_inv_l; reflexivity].
  - split.
    + destruct (f x) as [y |] eqn:Ey; [| discriminate].
      destruct (comprehension f l) as [ys' |]; [| discriminate].
      intros [= <-]. constructor; [assumption | apply IH; reflexivity].
    + intros (y & ys' & Hy & Hys & ->)%Forall2_cons_inv_l.
      rewrite Hy. apply IH in Hys. rewrite Hys. reflexivity.
Qed.

(** The resolver always has a module for [from_pretrained]. *)
Lemma resolver_total path :
  exists lib,
    llama_cpp_lib (import_block module_imports) shared_args_cpu is_gguf (Some path)
      = Some lib.
Proof.
  unfold llama_cpp_lib, import_block.
  destruct (cuda_is_available module_imports && negb (version_hip module_imports)); cbn.
  - destruct (imports_cuda module_imports), shared_args_cpu; cbn; eauto.
    destruct (imports_ggml_cuda module_imports), (is_gguf path); eauto.
  - rewrite orb_true_r. eauto.
Qed.

(** [from_pretrained], step by step. *)
Lemma from_pretrained_steps path lib (w : backend) :
  llama_cpp_lib (import_block module_imports) shared_args_cpu is_gguf (Some path)
    = Some lib ->
  from_pretrained path w =
  match cache_capacity args_cache_capacity with
  | Raise e => (Failed (Builtin e), w)
  | Ok c =>
      match tensor_split_list with
      | Failed e => (Failed e, w)
      | Loaded ts =>
          match params path ts with
          | Failed e => (Failed e, w)
          | Loaded p =>
              let called :=
                {| llama_calls := llama_calls w ++ [(lib, kwargs_of path p)];
                   cache_of := cache_of w |} in
              match Llama_class lib (kwargs_of path p) with
              | Failed e => (Failed e, called)
              | Loaded m =>
                  (Loaded (set_model __init__ m, set_model __init__ m),
                   if 0 <? c then
                     {| llama_calls := llama_calls w ++ [(lib, kwargs_of path p)];
                        cache_of := <[llama_id m := c]> (cache_of w) |}
                   else called)
              end
          end
      end
  end.
Proof.
  intros Hlib. unfold from_pretrained, load_bind, load_lift, load_ret, kwargs_of.
  rewrite Hlib.
  destruct (cache_capacity args_cache_capacity) as [c |]; cbn [of_result]; [| reflexivity].
  destruct tensor_split_list as [ts |]; [| reflexivity].
  destruct (params path ts) as [p |]; [| reflexivity].
  unfold call_Llama.
  destruct (Llama_class lib _) as [m |]; [| reflexivity].
  destruct (0 <? c); reflexivity.
Qed.

Lemma params_dom path ts p :
  params path ts = Loaded p -> dom p = common_keys.
Proof.
  unfold params. destruct (one_over _); [| discriminate]. intros [= <-].
  rewrite !dom_insert_L, dom_empty_L. unfold common_keys. cbn [list_to_set foldr].
  reflexivity.
Qed.

End LoaderFacts.

(** X16. A cache capacity that does not parse stops the loading before
    anything reaches the backend: [from_pretrained] raises the exception of
    the parsing, no [Llama] class is called and no cache is set. *)
Theorem from_pretrained_invalid_capacity :
  forall (R : Runtime) (L : LoadEnv) (path : string) (w : backend) (e : exn),
    cache_capacity args_cache_capacity = Raise e ->
    from_pretrained path w = (Failed (Builtin e), w).
Proof.
  intros R L path w e He.
  destruct (resolver_total path) as [lib Hlib].
  rewrite (from_pretrained_steps path lib w Hlib), He. reflexivity.
Qed.

Lemma from_pretrained_invalid_capacity_witness :
  cache_capacity (args_cache_capacity (LoadEnv := LoaderSample.env (Some "2gib") None 4 1))
    = Raise ValueError /\
  from_pretrained (R := LoaderSample.cpu_runtime)
    (L := LoaderSample.env (Some "2gib") None 4 1) "model.gguf" LoaderSample.fresh
    = (Failed (Builtin ValueError), LoaderSample.fresh).
Proof.
  split; [reflexivity |].
  exact (from_pretrained_invalid_capacity LoaderSample.cpu_runtime
           (LoaderSample.env (Some "2gib") None 4 1) "model.gguf" LoaderSample.fresh
           ValueError eq_refl).
Defined.

(** X17. A load that succeeds has called exactly one [Llama] class, the one
    of the module resolved for the path; it returns the same handle as model
    and as tokenizer, holding the object that the class built, with
    [initialized] still [False]. *)
Theorem from_pretrained_success :
  forall (R : Runtime) (L : LoadEnv) (path : string) (w w' : backend)
         (model tokenizer : LlamaCppModel),
    from_pretrained path w = (Loaded (model, tokenizer), w') ->
    tokenizer = model /\
    initialized model = false /\
    exists lib kwargs m,
      llama_cpp_lib (import_block module_imports) shared_args_cpu is_gguf (Some path)
        = Some lib /\
      Llama_class lib kwargs = Loaded m /\
      Engine.model model = Some m /\
      llama_calls w' = llama_calls w ++ [(lib, kwargs)].
Proof.
  intros R L path w w' model tokenizer.
  destruct (resolver_total path) as [lib Hlib].
  rewrite (from_pretrained_steps path lib w Hlib).
  destruct (cache_capacity args_cache_capacity) as [c |]; [| discriminate].
  destruct tensor_split_list as [ts |]; [| discriminate].
  destruct (params path ts) as [p |]; [| discriminate]. cbv zeta.
  destruct (Llama_class lib (kwargs_of path p)) as [m |] eqn:Em; [| discriminate].
  intros [= <- <- <-]. split; [reflexivity |]. split; [reflexivity |].
  exists lib, (kwargs_of path p), m. repeat split; try assumption.
  destruct (0 <? c); reflexivity.
Qed.

(** X18. The cache follows the parsed capacity: a load that succeeds sets
    a cache on the new backend object, of exactly the parsed capacity, when
    that is positive, and sets no cache when it is zero, negative or
    absent. *)
Theorem from_pretrained_cache :
  forall (R : Runtime) (L : LoadEnv) (path : string) (w w' : backend)
         (model tokenizer : LlamaCppModel),
    from_pretrained path w = (Loaded (model, tokenizer), w') ->
    exists (c : Z) (m : Llama),
      cache_capacity args_cache_capacity = Ok c /\
      Engine.model model = Some m /\
      (0 < c -> cache_of w' = <[llama_id m := c]> (cache_of w)) /\
      (c <= 0 -> cache_of w' = cache_of w).
Proof.
  intros R L path w w' model tokenizer.
  destruct (resolver_total path) as [lib Hlib].
  rewrite (from_pretrained_steps path lib w Hlib).
  destruct (cache_capacity args_cache_capacity) as [c |]; [| discriminate].
  destruct tensor_split_list as [ts |]; [| discriminate].
  destruct (params path ts) as [p |]; [| discriminate]. cbv zeta.
  destruct (Llama_class lib (kwargs_of path p)) as [m |]; [| discriminate].
  intros [= <- <- <-]. exists c, m. split; [reflexivity |]. split; [reflexivity |].
  destruct (0 <? c) eqn:Ec; split; intros; try lia; reflexivity.
Qed.

(** X19. A load that fails never sets a cache, and it has called a [Llama]
    class at most once: either nothing reached the backend, or the one call
    of the class is what raised. *)
Theorem from_pretrained_failure :
  forall (R : Runtime) (L : LoadEnv) (path : string) (w w' : backend) (e : load_exn),
    from_pretrained path w = (Failed e, w') ->
    cache_of w' = cache_of w /\
    (w' = w \/
     exists lib kwargs,
       Llama_class lib kwargs = Failed e /\
       llama_calls w' = llama_calls w ++ [(lib, kwargs)]).
Proof.
  intros R L path w w' e.
  destruct (resolver_total path) as [lib Hlib].
  rewrite (from_pretrained_steps path lib w Hlib).
  destruct (cache_capacity args_cache_capacity) as [c |];
    [| intros [= <- <-]; auto].
  destruct tensor_split_list as [ts |]; [| intros [= <- <-]; auto].
  destruct (params path ts) as [p |]; [| intros [= <- <-]; auto]. cbv zeta.
  destruct (Llama_class lib (kwargs_of path p)) as [m |] eqn:Em; [discriminate |].
  intros [= <- <-]. split; [reflexivity |]. right. eauto.
Qed.

Lemma from_pretrained_success_witness :
  LoaderSample.gguf_load
    = (Loaded (LoaderSample.loaded_handle, LoaderSample.loaded_handle),
       LoaderSample.gguf_load.2) /\
  LoaderSample.loaded_handle = LoaderSample.loaded_handle /\
  initialized LoaderSample.loaded_handle = false /\
  length (llama_calls LoaderSample.gguf_load.2) = 1%nat.
Proof.
  assert (H : LoaderSample.gguf_load
              = (Loaded (LoaderSample.loaded_handle, LoaderSample.loaded_handle),
                 LoaderSample.gguf_load.2)) by reflexivity.
  destruct (from_pretrained_success LoaderSample.cpu_runtime
              (LoaderSample.env (Some "1GiB") None 0 1) "model.gguf"
              LoaderSample.fresh _ _ _ H) as (Hsame & Hinit & _).
  split; [exact H |]. split; [exact Hsame |]. split; [exact Hinit | reflexivity].
Defined.

Lemma from_pretrained_cache_witness :
  LoaderSample.gguf_load
    = (Loaded (LoaderSample.loaded_handle, LoaderSample.loaded_handle),
       LoaderSample.gguf_load.2) /\
  cache_of LoaderSample.gguf_load.2 = {[ 7%positive := 1000000000 ]} /\
  cache_of LoaderSample.legacy_load.2 = ∅ /\
  exists (c : Z) (m : Llama),
    cache_capacity (Some "1GiB") = Ok c /\
    Engine.model LoaderSample.loaded_handle = Some m.
Proof.
  assert (H : LoaderSample.gguf_load
              = (Loaded (LoaderSample.loaded_handle, LoaderSample.loaded_handle),
                 LoaderSample.gguf_load.2)) by reflexivity.
  destruct (from_pretrained_cache LoaderSample.cpu_runtime
              (LoaderSample.env (Some "1GiB") None 0 1) "model.gguf"
              LoaderSample.fresh _ _ _ H) as (c & m & Hc & Hm & _).
  split; [exact H |]. split; [reflexivity |]. split; [reflexivity |].
  exists c, m. split; assumption.
Defined.

Lemma from_pretrained_failure_witness :
  from_pretrained (R := LoaderSample.cpu_runtime)
    (L := LoaderSample.env (Some "2gib") None 4 1) "model.gguf" LoaderSample.fresh
    = (Failed (Builtin ValueError), LoaderSample.fresh) /\
  cache_of LoaderSample.fresh = cache_of LoaderSample.fresh.
Proof.
  assert (H : from_pretrained (R := LoaderSample.cpu_runtime)
                (L := LoaderSample.env (Some "2gib") None 4 1) "model.gguf"
                LoaderSample.fresh
              = (Failed (Builtin ValueError), LoaderSample.fresh)) by reflexivity.
  split; [exact H |].
  exact (proj1 (from_pretrained_failure LoaderSample.cpu_runtime
                  (LoaderSample.env (Some "2gib") None 4 1) "model.gguf"
                  LoaderSample.fresh _ _ H)).
Defined.

Section LoaderKwargs.
Context {R : Runtime} {L : LoadEnv}.

Lemma ggml_params_dom : dom ggml_params = ggml_keys.
Proof.
  unfold ggml_params. rewrite !dom_insert_L, dom_empty_L. reflexivity.
Qed.

Lemma kwargs_of_dom path ts p :
  params path ts = Loaded p ->
  dom (kwargs_of path p) =
    if is_gguf path then common_keys else common_keys ∪ ggml_keys.
Proof.
  intros Hp. unfold kwargs_of. destruct (is_gguf path).
  - apply (params_dom _ _ _ Hp).
  - rewrite dom_union_L, ggml_params_dom, (params_dom _ _ _ Hp).
    apply (comm_L (∪)).
Qed.

Lemma kwargs_of_common path ts p :
  params path ts = Loaded p ->
  kwargs_of path p !! "model_path" = Some (VStr path) /\
  kwargs_of path p !! "n_threads" = Some (int_or_None args_threads) /\
  kwargs_of path p !! "use_mmap" = Some (VBool (negb args_no_mmap)).
Proof.
  unfold params. destruct (one_over _) as [scale |]; [| discriminate].
  intros [= <-]. unfold kwargs_of, ggml_params.
  destruct (is_gguf path); repeat split;
    rewrite ?lookup_union_r by reflexivity; reflexivity.
Qed.

(** The call that a run of [from_pretrained] has added to the record. *)
Lemma from_pretrained_call path (w w' : backend) r lib kwargs :
  from_pretrained path w = (r, w') ->
  llama_calls w' = llama_calls w ++ [(lib, kwargs)] ->
  exists ts p, params path ts = Loaded p /\ kwargs = kwargs_of path p.
Proof.
  assert (Hnot : forall call, llama_calls w <> llama_calls w ++ [call]).
  { intros call Heq. apply (f_equal length) in Heq.
    rewrite length_app in Heq. cbn in Heq. lia. }
  destruct (resolver_total path) as [lib' Hlib].
  rewrite (from_pretrained_steps path lib' w Hlib).
  destruct (cache_capacity args_cache_capacity) as [c |];
    [| intros [= <- <-] Hlog; destruct (Hnot _ Hlog)].
  destruct tensor_split_list as [ts |];
    [| intros [= <- <-] Hlog; destruct (Hnot _ Hlog)].
  destruct (params path ts) as [p |] eqn:Ep;
    [| intros [= <- <-] Hlog; destruct (Hnot _ Hlog)].
  cbv zeta. intros Hrun Hlog. exists ts, p. split; [exact Ep |].
  assert (Hlog' : llama_calls w' = llama_calls w ++ [(lib', kwargs_of path p)]).
  { destruct (Llama_class lib' (kwargs_of path p));
      [destruct (0 <? c) |]; injection Hrun as <- <-; reflexivity. }
  rewrite Hlog' in Hlog. apply app_inv_head in Hlog. congruence.
Qed.

End LoaderKwargs.

(** X20. The keyword arguments of the [Llama] class are the thirteen of the
    dictionary literal for a GGUF file, and those and [n_gqa] and
    [rms_norm_eps] for any other file, whatever the module of the class;
    among them [model_path] is the path, [n_threads] is [None] when the
    thread count is 0 and the count otherwise, and [use_mmap] is the
    negation of [no_mmap]. *)
Theorem from_pretrained_keyword_arguments :
  forall (R : Runtime) (L : LoadEnv) (path : string) (w w' : backend)
         (r : load_result (LlamaCppModel * LlamaCppModel))
         (lib : module) (kwargs : gmap string value),
    from_pretrained path w = (r, w') ->
    llama_calls w' = llama_calls w ++ [(lib, kwargs)] ->
    dom kwargs = (if is_gguf path then common_keys else common_keys ∪ ggml_keys) /\
    kwargs !! "model_path" = Some (VStr path) /\
    kwargs !! "n_threads" = Some (if args_threads =? 0 then VNone else VInt args_threads) /\
    kwargs !! "use_mmap" = Some (VBool (negb args_no_mmap)).
Proof.
  intros R L path w w' r lib kwargs Hrun Hlog.
  destruct (from_pretrained_call path w w' r lib kwargs Hrun Hlog)
    as (ts & p & Hp & ->).
  split; [apply (kwargs_of_dom path ts p Hp) |].
  apply (kwargs_of_common path ts p Hp).
Qed.

Lemma from_pretrained_keyword_arguments_witness :
  llama_calls LoaderSample.legacy_load.2
    = llama_calls LoaderSample.fresh
      ++ [(llama_cpp,
           kwargs_of (R := LoaderSample.cpu_runtime)
             (L := LoaderSample.env None (Some " 1,3 ") 4 1) "model.bin"
             (<["model_path" := VStr "model.bin"]> $
              <["n_ctx" := VInt 2048]> $ <["seed" := VInt 0]> $
              <["n_threads" := VInt 4]> $ <["n_batch" := VInt 512]> $
              <["use_mmap" := VBool true]> $ <["use_mlock" := VBool false]> $
              <["mul_mat_q" := VBool true]> $ <["low_vram" := VBool false]> $
              <["n_gpu_layers" := VInt 0]> $
              <["rope_freq_base" := VFloat 10000%float]> $
              <["tensor_split" := VFloats [1; 3]%float]> $
              <["rope_freq_scale" := VFloat 1%float]> ∅))] /\
  family_of llama_cpp = Modern /\
  "n_gqa" ∈ dom (kwargs_of (R := LoaderSample.cpu_runtime)
                   (L := LoaderSample.env None (Some " 1,3 ") 4 1) "model.bin"
                   (<["model_path" := VStr "model.bin"]> $
                    <["n_ctx" := VInt 2048]> $ <["seed" := VInt 0]> $
                    <["n_threads" := VInt 4]> $ <["n_batch" := VInt 512]> $
                    <["use_mmap" := VBool true]> $ <["use_mlock" := VBool false]> $
                    <["mul_mat_q" := VBool true]> $ <["low_vram" := VBool false]> $
                    <["n_gpu_layers" := VInt 0]> $
                    <["rope_freq_base" := VFloat 10000%float]> $
                    <["tensor_split" := VFloats [1; 3]%float]> $
                    <["rope_freq_scale" := VFloat 1%float]> ∅)).
Proof.
  assert (Hlog : llama_calls LoaderSample.legacy_load.2
    = llama_calls LoaderSample.fresh
      ++ [(llama_cpp,
           kwargs_of (R := LoaderSample.cpu_runtime)
             (L := LoaderSample.env None (Some " 1,3 ") 4 1) "model.bin"
             (<["model_path" := VStr "model.bin"]> $
              <["n_ctx" := VInt 2048]> $ <["seed" := VInt 0]> $
              <["n_threads" := VInt 4]> $ <["n_batch" := VInt 512]> $
              <["use_mmap" := VBool true]> $ <["use_mlock" := VBool false]> $
              <["mul_mat_q" := VBool true]> $ <["low_vram" := VBool false]> $
              <["n_gpu_layers" := VInt 0]> $
              <["rope_freq_base" := VFloat 10000%float]> $
              <["tensor_split" := VFloats [1; 3]%float]> $
              <["rope_freq_scale" := VFloat 1%float]> ∅))]) by reflexivity.
  split; [exact Hlog |]. split; [reflexivity |].
  destruct (from_pretrained_keyword_arguments LoaderSample.cpu_runtime
              (LoaderSample.env None (Some " 1,3 ") 4 1) "model.bin"
              LoaderSample.fresh _ _ _ _ (surjective_pairing _) Hlog) as (Hdom & _).
  rewrite Hdom. cbn. unfold common_keys, ggml_keys. set_solver.
Defined.



(** X22. A tensor split that is absent, empty or made of white space only
    gives no tensor split ([None]), and [float] is not called. *)
Theorem tensor_split_blank :
  forall (L : LoadEnv),
    (args_tensor_split = None \/
     exists s, args_tensor_split = Some s /\ all_chars is_str_space s = true) ->
    tensor_split_list = Loaded None.
Proof.
  intros L [Hnone | (s & Hs & Hblank)]; unfold tensor_split_list.
  - rewrite Hnone. reflexivity.
  - rewrite Hs. unfold strip. rewrite (lstrip_spaces s Hblank). reflexivity.
Qed.

Lemma tensor_split_blank_witness :
  all_chars is_str_space "  " = true /\
  tensor_split_list (L := LoaderSample.env None (Some "  ") 4 1) = Loaded None.
Proof.
  split; [reflexivity |].
  exact (tensor_split_blank
           (LoaderSample.env None (Some "  ") 4 1)
           (or_intror (ex_intro _ "  " (conj eq_refl eq_refl)))).
Defined.

(** X23. A tensor split that is not blank is cut at every comma after the
    white space around it is removed: it yields a list exactly when [float]
    accepts every field, the list then holds the value of each field in
    order, one more entry than there are commas, and is never empty. *)
Theorem tensor_split_fields :
  forall (L : LoadEnv) (s : string),
    args_tensor_split = Some s ->
    strip s <> "" ->
    (forall l,
       tensor_split_list = Loaded (Some l) <->
       Forall2 (fun field x => float_of_str field = Loaded x) (split "," (strip s)) l) /\
    (forall l,
       tensor_split_list = Loaded (Some l) ->
       length l = S (count_char "," (strip s))) /\
    tensor_split_list <> Loaded None.
Proof.
  intros L s Hs Hne.
  assert (Heq : tensor_split_list =
                match comprehension float_of_str (split "," (strip s)) with
                | Loaded l => Loaded (Some l)
                | Failed e => Failed e
                end).
  { unfold tensor_split_list. rewrite Hs. destruct (strip s); [congruence | reflexivity]. }
  assert (Hiff : forall l,
            tensor_split_list = Loaded (Some l) <->
            Forall2 (fun field x => float_of_str field = Loaded x)
              (split "," (strip s)) l).
  { intros l. rewrite Heq, <- comprehension_Loaded.
    destruct (comprehension float_of_str (split "," (strip s))); split; congruence. }
  split; [exact Hiff |]. split.
  - intros l Hl%Hiff. apply Forall2_length in Hl. rewrite <- Hl. apply split_length.
  - rewrite Heq. destruct (comprehension _ _); discriminate.
Qed.

Lemma tensor_split_fields_witness :
  args_tensor_split (LoadEnv := LoaderSample.env None (Some " 1,3 ") 4 1)
    = Some " 1,3 " /\
  strip " 1,3 " = "1,3" /\
  strip " 1,3 " <> "" /\
  tensor_split_list (L := LoaderSample.env None (Some " 1,3 ") 4 1)
    = Loaded (Some [1; 3]%float) /\
  length [1; 3]%float = S (count_char "," (strip " 1,3 ")) /\
  tensor_split_list (L := LoaderSample.env None (Some "1,,3") 4 1)
    = Failed (Builtin ValueError).
Proof.
  assert (Hne : strip " 1,3 " <> "") by discriminate.
  split; [reflexivity |]. split; [reflexivity |]. split; [exact Hne |].
  split; [reflexivity |]. split; [| reflexivity].
  exact (proj1 (proj2 (tensor_split_fields
                         (LoaderSample.env None (Some " 1,3 ") 4 1) " 1,3 "
                         eq_refl Hne)) [1; 3]%float eq_refl).
Defined.
